(** * A three-tier memory pool: size classes, central cache, page cache

    Shallow embedding of [include/Common.h], [src/PageCache.cpp] and
    [src/CentralCache.cpp].

    - [size_t] values are integers in [[0, 2^64)]; arithmetic that can
      overflow is wrapped with [wrap64].
    - Pointers are integers, [0] is [nullptr]; [char*] arithmetic is
      addition modulo [2^64].
    - Raw memory is a map from an address to the pointer-sized word stored
      there.  Every access of the modelled code is to the first word of a
      block, so words never overlap.
    - [Span] objects live in a heap indexed by object identity, so that two
      [Span*] holding the same object alias.
    - [option] is used for calls that do not return normally: a null or
      dangling [Span*] dereference, or a loop that never exits. *)

From stdpp Require Import gmap list fin_maps.
From Stdlib Require Import ZArith Lia.
Local Open Scope Z_scope.

(** ** Machine integers and raw memory *)

Definition wrap64 (x : Z) : Z := x mod 2 ^ 64.

Definition ptr_add (p off : Z) : Z := wrap64 (p + off).

Definition Mem := Z -> Z.

Definition load (m : Mem) (a : Z) : Z := m a.

Definition store (m : Mem) (a v : Z) : Mem :=
  fun x => if bool_decide (x = a) then v else m x.

(** [memset(p, 0, size)] *)
Definition memset0 (m : Mem) (p size : Z) : Mem :=
  fun x => if bool_decide (p <= x < p + size) then 0 else m x.

(** The intrusive free list starting at [p], read out of memory: the blocks
    [l] in order, each non-null, the first word of each pointing to the
    next, the last one holding [nullptr]. *)
Fixpoint is_list (m : Mem) (p : Z) (l : list Z) : Prop :=
  match l with
  | [] => p = 0
  | a :: l' => p = a /\ a <> 0 /\ is_list m (load m a) l'
  end.

(** ** Common.h *)

Definition ALIGNMENT : Z := 8.
Definition MAX_BYTES : Z := 256 * 1024.
Definition FREE_LIST_SIZE : Z := MAX_BYTES / ALIGNMENT.

Module SizeClass.

Definition roundUp (bytes : Z) : Z :=
  Z.land (wrap64 (bytes + ALIGNMENT - 1)) (wrap64 (Z.lnot (ALIGNMENT - 1))).

Definition getIndex (bytes : Z) : Z :=
  let bytes := Z.max bytes ALIGNMENT in
  wrap64 (wrap64 (bytes + ALIGNMENT - 1) / ALIGNMENT - 1).

End SizeClass.

(** ** PageCache.h, PageCache.cpp *)

Module PageCache.

Definition PAGE_SIZE : Z := 4096.

(** [struct Span]; [next] is [None] for [nullptr]. *)
Record Span := mkSpan {
  pageAddr : Z;
  numPages : Z;
  next : option positive
}.

Definition set_numPages (s : Span) (n : Z) : Span :=
  mkSpan (pageAddr s) n (next s).

Definition set_next (s : Span) (nx : option positive) : Span :=
  mkSpan (pageAddr s) (numPages s) nx.

(** The singleton's fields.  [spans] is the C++ heap of [Span] objects.
    [freeSpans_] maps a page count to the head of a list of spans; the head
    can be [nullptr].  [spanMap_] maps a start address to a span; the code
    never stores [nullptr] there. *)
Record state := mkState {
  spans : gmap positive Span;
  freeSpans_ : gmap Z (option positive);
  spanMap_ : gmap Z positive
}.

Definition empty : state := mkState ∅ ∅ ∅.

(** [std::map::lower_bound]: the entry with the least key [>= n], found by
    keeping the best candidate while going through the entries. *)
Definition lower_bound_step {V} (n : Z) (kv : Z * V) (acc : option (Z * V))
  : option (Z * V) :=
  if bool_decide (n <= kv.1) then
    match acc with
    | Some best => if bool_decide (kv.1 < best.1) then Some kv else acc
    | None => Some kv
    end
  else acc.

Definition lower_bound {V} (m : gmap Z V) (n : Z) : option (Z * V) :=
  foldr (lower_bound_step n) None (map_to_list m).

(** [systemAlloc]: [os] is the answer of [mmap], [None] for [MAP_FAILED]. *)
Definition systemAlloc (os : option Z) (m : Mem) (numPages : Z) : Z * Mem :=
  let size := wrap64 (numPages * PAGE_SIZE) in
  match os with
  | None => (0, m)
  | Some ptr => (ptr, memset0 m ptr size)
  end.

Definition allocateSpan (os : option Z) (m : Mem) (pc : state) (numPages : Z)
  : option (Z * Mem * state) :=
  match lower_bound (freeSpans_ pc) numPages with
  | Some (key, it_second) =>
      span ← it_second;
      s ← spans pc !! span;
      (* unlink the head of the bucket *)
      let fs1 := match next s with
                 | Some nx => <[key := Some nx]> (freeSpans_ pc)
                 | None => delete key (freeSpans_ pc)
                 end in
      let '(h2, fs2) :=
        if bool_decide (numPages < PageCache.numPages s) then
          let newSpan := fresh (dom (spans pc)) in
          let list := default None (fs1 !! (PageCache.numPages s - numPages)) in
          let new := mkSpan (ptr_add (pageAddr s) (wrap64 (numPages * PAGE_SIZE)))
                            (PageCache.numPages s - numPages) list in
          (<[span := set_numPages s numPages]> (<[newSpan := new]> (spans pc)),
           <[PageCache.numPages s - numPages := Some newSpan]> fs1)
        else (spans pc, fs1) in
      s2 ← h2 !! span;
      Some (pageAddr s2, m, mkState h2 fs2 (<[pageAddr s2 := span]> (spanMap_ pc)))
  | None =>
      let '(memory, m') := systemAlloc os m numPages in
      if bool_decide (memory = 0) then Some (0, m', pc)
      else
        let span := fresh (dom (spans pc)) in
        Some (memory, m',
              mkState (<[span := mkSpan memory numPages None]> (spans pc))
                      (freeSpans_ pc)
                      (<[memory := span]> (spanMap_ pc)))
  end.

(** The [while (prev->next)] search of [deallocateSpan].  It exits when it
    reaches the end of the list or finds [nextSpan]; on a cyclic list that
    does not contain [nextSpan] it never exits, which is the [None] of an
    exhausted [fuel]. *)
Fixpoint unlinkAfter (fuel : nat) (h : gmap positive Span) (prev nextSpan : positive)
  : option (gmap positive Span * bool) :=
  match fuel with
  | O => None
  | S fuel' =>
      p ← h !! prev;
      match next p with
      | None => Some (h, false)
      | Some q =>
          if decide (q = nextSpan) then
            ns ← h !! nextSpan;
            Some (<[prev := set_next p (next ns)]> h, true)
          else unlinkAfter fuel' h q nextSpan
      end
  end.

(** The body of [if (nextIt != spanMap_.end())]. *)
Definition coalesce (fuel : nat) (pc : state) (span : positive) (nextAddr : Z)
    (nextSpan : positive) : option state :=
  ns ← spans pc !! nextSpan;
  let key := numPages ns in
  (* [freeSpans_[key]] creates the entry, holding [nullptr], when absent *)
  let nextList := default None (freeSpans_ pc !! key) in
  let fs0 := <[key := nextList]> (freeSpans_ pc) in
  r ← (if decide (nextList = Some nextSpan) then
         Some (spans pc, <[key := next ns]> fs0, true)
       else
         match nextList with
         | Some prev =>
             hb ← unlinkAfter fuel (spans pc) prev nextSpan;
             Some (hb.1, fs0, hb.2)
         | None => Some (spans pc, fs0, false)
         end);
  let '(h1, fs1, found) := r in
  if (found : bool) then
    s ← h1 !! span;
    ns1 ← h1 !! nextSpan;
    let h2 := <[span := set_numPages s (wrap64 (numPages s + numPages ns1))]> h1 in
    Some (mkState (delete nextSpan h2) fs1 (delete nextAddr (spanMap_ pc)))
  else Some (mkState h1 fs1 (spanMap_ pc)).

Definition deallocateSpan (fuel : nat) (pc : state) (ptr numPages : Z)
  : option state :=
  match spanMap_ pc !! ptr with
  | None => Some pc
  | Some span =>
      let nextAddr := ptr_add ptr (wrap64 (numPages * PAGE_SIZE)) in
      pc1 ← match spanMap_ pc !! nextAddr with
            | Some nextSpan => coalesce fuel pc span nextAddr nextSpan
            | None => Some pc
            end;
      s ← spans pc1 !! span;
      let list := default None (freeSpans_ pc1 !! PageCache.numPages s) in
      Some (mkState (<[span := set_next s list]> (spans pc1))
                    (<[PageCache.numPages s := Some span]> (freeSpans_ pc1))
                    (spanMap_ pc1))
  end.

End PageCache.

(** ** CentralCache.h, CentralCache.cpp *)

Module CentralCache.

Import PageCache.

Definition SPAN_PAGES : Z := 8.

(** What a [CentralCache] call can touch: raw memory, the [PageCache]
    singleton, and the two arrays of the [CentralCache] singleton.  An array
    slot that was never written holds what the constructor put there:
    [nullptr] for a list head, a clear flag for a lock. *)
Record state := mkState {
  mem : Mem;
  page : PageCache.state;
  centralFreeList_ : gmap Z Z;
  locks_ : gmap Z bool
}.

Definition head_of (st : state) (index : Z) : Z :=
  default 0 (centralFreeList_ st !! index).

Definition locked (st : state) (index : Z) : bool :=
  default false (locks_ st !! index).

Definition fetchFromPageCache (os : option Z) (m : Mem) (pc : PageCache.state)
    (size : Z) : option (Z * Mem * PageCache.state) :=
  let numPages := wrap64 (size + PAGE_SIZE - 1) / PAGE_SIZE in
  if bool_decide (size <= SPAN_PAGES * PAGE_SIZE) then
    allocateSpan os m pc SPAN_PAGES
  else
    allocateSpan os m pc numPages.

(** The linking [for] loops of [fetchRange]: [n] iterations from index [i],
    each storing the address of block [i] into the first word of block
    [i - 1]. *)
Fixpoint link_blocks (n : nat) (m : Mem) (start size i : Z) : Mem :=
  match n with
  | O => m
  | S n' =>
      let current := ptr_add start ((i - 1) * size) in
      let next := ptr_add start (i * size) in
      link_blocks n' (store m current next) start size (i + 1)
  end.

(** [while (current && count < batchNum)] of [fetchRange]; the loop runs at
    most [batchNum] times. *)
Fixpoint take_blocks (fuel : nat) (m : Mem) (current prev count batchNum : Z)
  : Z * Z :=
  match fuel with
  | O => (prev, current)
  | S fuel' =>
      if bool_decide (current <> 0) && bool_decide (count < batchNum) then
        take_blocks fuel' m (load m current) current (count + 1) batchNum
      else (prev, current)
  end.

(** The carving step of [fetchRange], from the computation of
    [totalBlocks] to the store into [centralFreeList_[index]]: the memory
    and the list heads it leaves. *)
Definition carve_span (m1 : Mem) (heads : gmap Z Z) (start size index batchNum : Z)
  : Mem * gmap Z Z :=
  let totalBlocks := (SPAN_PAGES * PAGE_SIZE) / size in
  let allocBlocks := Z.min batchNum totalBlocks in
  let m2 :=
    if bool_decide (1 < allocBlocks) then
      store (link_blocks (Z.to_nat (allocBlocks - 1)) m1 start size 1)
            (ptr_add start ((allocBlocks - 1) * size)) 0
    else m1 in
  if bool_decide (allocBlocks < totalBlocks) then
    let remainStart := ptr_add start (allocBlocks * size) in
    (store (link_blocks (Z.to_nat (totalBlocks - (allocBlocks + 1))) m2
                        start size (allocBlocks + 1))
           (ptr_add start ((totalBlocks - 1) * size)) 0,
     <[index := remainStart]> heads)
  else (m2, heads).

(** [fetchRange].  The spin on [locks_[index]] never ends when the flag is
    already set and nobody else runs: [None]. *)
Definition fetchRange (os : option Z) (st : state) (index batchNum : Z)
  : option (Z * state) :=
  if bool_decide (FREE_LIST_SIZE <= index) || bool_decide (batchNum = 0) then
    Some (0, st)
  else if locked st index then None
  else
    let locks1 := <[index := true]> (locks_ st) in
    let result := head_of st index in
    if bool_decide (result = 0) then
      let size := (index + 1) * ALIGNMENT in
      r ← fetchFromPageCache os (mem st) (page st) size;
      let '(result, m1, pc1) := r in
      if bool_decide (result = 0) then
        Some (0, mkState m1 pc1 (centralFreeList_ st) (<[index := false]> locks1))
      else
        let '(m3, heads) :=
          carve_span m1 (centralFreeList_ st) result size index batchNum in
        Some (result, mkState m3 pc1 heads (<[index := false]> locks1))
    else
      let '(prev, current) :=
        take_blocks (Z.to_nat batchNum) (mem st) result 0 0 batchNum in
      let m1 := if bool_decide (prev = 0) then mem st else store (mem st) prev 0 in
      Some (result,
            mkState m1 (page st) (<[index := current]> (centralFreeList_ st))
                    (<[index := false]> locks1)).

(** The tail search of [returnRange]: while the word at [end_] is not
    [nullptr] and [count < size], move on.  [count] starts at 1, so the loop
    runs fewer than [size] times. *)
Fixpoint find_tail (fuel : nat) (m : Mem) (end_ count size : Z) : Z :=
  match fuel with
  | O => end_
  | S fuel' =>
      if bool_decide (load m end_ <> 0) && bool_decide (count < size) then
        find_tail fuel' m (load m end_) (count + 1) size
      else end_
  end.

Definition returnRange (st : state) (start size index : Z) : option state :=
  if bool_decide (start = 0) || bool_decide (FREE_LIST_SIZE <= index) then
    Some st
  else if locked st index then None
  else
    let locks1 := <[index := true]> (locks_ st) in
    let end_ := find_tail (Z.to_nat size) (mem st) start 1 size in
    let current := head_of st index in
    Some (mkState (store (mem st) end_ current) (page st)
                  (<[index := start]> (centralFreeList_ st))
                  (<[index := false]> locks1)).

Definition init (m : Mem) : state := mkState m PageCache.empty ∅ ∅.

End CentralCache.

(** ** Vocabulary of the specification *)

(** Blocks number [i], [i+1], ... ([n] of them) of a span at [start] carved
    into blocks of [size] bytes. *)
Fixpoint block_seq (start size i : Z) (n : nat) : list Z :=
  match n with
  | O => []
  | S n' => (start + i * size) :: block_seq start size (i + 1) n'
  end.

(** Pages the Page Layer is asked for, by class size. *)
Definition pages_for (size : Z) : Z :=
  if bool_decide (size <= 8 * 4096) then 8 else (size + 4095) / 4096.

(** The refill postcondition as the specification words it: with [P] pages
    requested, [T = P * 4096 / size] blocks and [A = min batchNum T], the
    first [A] blocks come back as one list and the other [T - A] become the
    class's central list. *)
Definition refill_lists_as_specified : Prop :=
  forall os st index batchNum start m1 pc1,
    let size := (index + 1) * ALIGNMENT in
    let P := pages_for size in
    let T := (P * PageCache.PAGE_SIZE) / size in
    let A := Z.min batchNum T in
    0 <= index < FREE_LIST_SIZE -> 0 < batchNum ->
    CentralCache.locked st index = false -> CentralCache.head_of st index = 0 ->
    PageCache.allocateSpan os (CentralCache.mem st) (CentralCache.page st) P
      = Some (start, m1, pc1) ->
    0 < start -> start + P * PageCache.PAGE_SIZE <= 2 ^ 64 ->
    exists st',
      CentralCache.fetchRange os st index batchNum = Some (start, st') /\
      is_list (CentralCache.mem st') start (block_seq start size 0 (Z.to_nat A)) /\
      is_list (CentralCache.mem st') (CentralCache.head_of st' index)
              (block_seq start size A (Z.to_nat (T - A))).

(** The failure contract as the specification words it: a null span or a
    carving of zero blocks makes [fetchRange] return [nullptr] with the lock
    released and the class's list untouched. *)
Definition fetch_failure_as_specified : Prop :=
  forall os st index batchNum r m1 pc1,
    let size := (index + 1) * ALIGNMENT in
    0 <= index < FREE_LIST_SIZE -> 0 < batchNum ->
    CentralCache.locked st index = false -> CentralCache.head_of st index = 0 ->
    CentralCache.fetchFromPageCache os (CentralCache.mem st) (CentralCache.page st) size
      = Some (r, m1, pc1) ->
    r = 0 \/ (CentralCache.SPAN_PAGES * PageCache.PAGE_SIZE) / size = 0 ->
    exists st',
      CentralCache.fetchRange os st index batchNum = Some (0, st') /\
      CentralCache.locked st' index = false /\
      CentralCache.centralFreeList_ st' = CentralCache.centralFreeList_ st.

(** The head of the free-span list for page count [k]; [nullptr] when the
    map has no entry. *)
Definition bucket (pc : PageCache.state) (k : Z) : option positive :=
  default None (PageCache.freeSpans_ pc !! k).

(** The span list starting at [p], read out of the heap: the live spans [l]
    in order, linked by [next], the last one with a null [next]. *)
Fixpoint is_chain (h : gmap positive PageCache.Span) (p : option positive)
    (l : list positive) : Prop :=
  match l with
  | [] => p = None
  | a :: l' =>
      p = Some a /\
      match h !! a with
      | Some s => is_chain h (PageCache.next s) l'
      | None => False
      end
  end.

(** A span is free when it is on the free-span list for its page count. *)
Definition on_free_list (pc : PageCache.state) (S : positive) : Prop :=
  exists s l,
    PageCache.spans pc !! S = Some s /\
    is_chain (PageCache.spans pc) (bucket pc (PageCache.numPages s)) l /\
    S ∈ l.

(** The split postcondition as the specification words it: the tail span
    is created, linked into the bucket of its page count and recorded in the
    registry; the served span is cut to [n] pages and recorded. *)
Definition split_as_specified : Prop :=
  forall os m pc n k S s,
    PageCache.lower_bound (PageCache.freeSpans_ pc) n = Some (k, Some S) ->
    PageCache.spans pc !! S = Some s ->
    0 <= n < PageCache.numPages s ->
    0 <= PageCache.pageAddr s ->
    PageCache.pageAddr s + PageCache.numPages s * PageCache.PAGE_SIZE <= 2 ^ 64 ->
    exists pc' S' s',
      PageCache.allocateSpan os m pc n = Some (PageCache.pageAddr s, m, pc') /\
      PageCache.spans pc' !! S' = Some s' /\
      PageCache.pageAddr s' = PageCache.pageAddr s + n * PageCache.PAGE_SIZE /\
      PageCache.numPages s' = PageCache.numPages s - n /\
      PageCache.freeSpans_ pc' !! PageCache.numPages s' = Some (Some S') /\
      PageCache.spanMap_ pc' !! PageCache.pageAddr s' = Some S' /\
      PageCache.spans pc' !! S = Some (PageCache.set_numPages s n) /\
      PageCache.spanMap_ pc' !! PageCache.pageAddr s = Some S.

(** Calls on the page layer, and their effect in sequence. *)
Inductive page_op :=
  | Allocate (os : option Z) (numPages : Z)
  | Deallocate (ptr numPages : Z).

Fixpoint run_page (fuel : nat) (ops : list page_op) (mp : Mem * PageCache.state)
  : option (Mem * PageCache.state) :=
  match ops with
  | [] => Some mp
  | Allocate os n :: ops' =>
      r ← PageCache.allocateSpan os mp.1 mp.2 n;
      run_page fuel ops' (r.1.2, r.2)
  | Deallocate ptr n :: ops' =>
      pc ← PageCache.deallocateSpan fuel mp.2 ptr n;
      run_page fuel ops' (mp.1, pc)
  end.

(** No free span ends exactly where another free span begins. *)
Definition no_adjacent_free (pc : PageCache.state) : Prop :=
  forall A B sA sB,
    on_free_list pc A -> on_free_list pc B ->
    PageCache.spans pc !! A = Some sA -> PageCache.spans pc !! B = Some sB ->
    PageCache.pageAddr sA + PageCache.numPages sA * PageCache.PAGE_SIZE
      <> PageCache.pageAddr sB.

(** The coalescing invariant as the specification words it. *)
Definition never_adjacent_free_as_specified : Prop :=
  forall fuel ops m pc,
    run_page fuel ops (fun _ => 0, PageCache.empty) = Some (m, pc) ->
    no_adjacent_free pc.

(** The coalescing step as the specification words it: a free span that
    exists at [ptr + n * 4096] is unlinked from its list, its pages are added
    to the released span, it leaves the registry, and the released span
    becomes the head of the list for its page count. *)
Definition release_coalesces_as_specified : Prop :=
  forall fuel pc ptr n S s S' s' l,
    PageCache.spanMap_ pc !! ptr = Some S -> PageCache.spans pc !! S = Some s ->
    PageCache.spans pc !! S' = Some s' ->
    PageCache.pageAddr s' = ptr + n * PageCache.PAGE_SIZE ->
    is_chain (PageCache.spans pc) (bucket pc (PageCache.numPages s')) l -> S' ∈ l ->
    S' <> S -> (S ∉ l) -> (length l < fuel)%nat ->
    exists pc' sF,
      PageCache.deallocateSpan fuel pc ptr n = Some pc' /\
      PageCache.spans pc' !! S = Some sF /\
      PageCache.numPages sF = PageCache.numPages s + PageCache.numPages s' /\
      ~ on_free_list pc' S' /\
      PageCache.spanMap_ pc' !! PageCache.pageAddr s' = None /\
      PageCache.freeSpans_ pc' !! PageCache.numPages sF = Some (Some S).

(** Every registry entry leads to a live span that starts at the
    registered address. *)
Definition registry_ok (pc : PageCache.state) : Prop :=
  forall a S,
    PageCache.spanMap_ pc !! a = Some S ->
    exists s, PageCache.spans pc !! S = Some s /\ PageCache.pageAddr s = a.

(** The span at the head of each free-span list has the page count the
    list is keyed by. *)
Definition heads_sized (pc : PageCache.state) : Prop :=
  forall k S s,
    PageCache.freeSpans_ pc !! k = Some (Some S) ->
    PageCache.spans pc !! S = Some s ->
    PageCache.numPages s = k.

(** ** Concrete states used in examples *)

Definition zeroed : Mem := fun _ => 0.

(** Memory whose every word holds a stale non-null value. *)
Definition dirty : Mem := fun _ => 57005.

(** A page cache holding one free, registered span of 65 pages at 65536: the
    state after a 65-page span was obtained from the OS and released. *)
Definition pc_free65 : PageCache.state :=
  PageCache.mkState {[ 1%positive := PageCache.mkSpan 65536 65 None ]}
                    {[ 65 := Some 1%positive ]}
                    {[ 65536 := 1%positive ]}.

(** The same pool seen from the central cache, every word of memory
    holding stale data. *)
Definition st_dirty65 : CentralCache.state :=
  CentralCache.mkState dirty pc_free65 ∅ ∅.

(** [pc_free65] after an 8-page span was split off it. *)
Definition pc_split65 : PageCache.state :=
  PageCache.mkState
    {[ 1%positive := PageCache.mkSpan 65536 8 None;
       2%positive := PageCache.mkSpan 98304 57 None ]}
    {[ 57 := Some 2%positive ]}
    {[ 65536 := 1%positive ]}.

(** [pc_free65] after a 9-page span was split off it. *)
Definition pc_split65_large : PageCache.state :=
  PageCache.mkState
    {[ 1%positive := PageCache.mkSpan 65536 9 None;
       2%positive := PageCache.mkSpan 102400 56 None ]}
    {[ 56 := Some 2%positive ]}
    {[ 65536 := 1%positive ]}.

(** Two registered one-page spans side by side, the first in use and the
    second on the free list. *)
Definition pc_pair : PageCache.state :=
  PageCache.mkState
    {[ 1%positive := PageCache.mkSpan 65536 1 None;
       2%positive := PageCache.mkSpan 69632 1 None ]}
    {[ 1 := Some 2%positive ]}
    {[ 65536 := 1%positive; 69632 := 2%positive ]}.

(** One two-page span from the OS, released, then handed out again as two
    one-page spans, which are released in address order. *)
Definition ops_release_in_order : list page_op :=
  [ Allocate (Some 65536) 2; Deallocate 65536 2;
    Allocate None 1; Allocate None 1;
    Deallocate 65536 1; Deallocate 69632 1 ].

(** Both spans end up on the one-page free list. *)
Definition pc_both_free : PageCache.state :=
  PageCache.mkState
    {[ 1%positive := PageCache.mkSpan 65536 1 None;
       2%positive := PageCache.mkSpan 69632 1 (Some 1%positive) ]}
    {[ 1 := Some 2%positive ]}
    {[ 65536 := 1%positive; 69632 := 2%positive ]}.

(** Nine free blocks of class 0 chained in memory at 65536, 65544, ...,
    65600, the last one holding [nullptr]. *)
Definition chain9 : Mem :=
  fun a => if bool_decide (65536 <= a < 65600 /\ a mod 8 = 0) then a + 8 else 0.

Definition st_chain9 : CentralCache.state :=
  CentralCache.mkState chain9 PageCache.empty ∅ ∅.

(** The nine chained blocks as the central list of class 0. *)
Definition st_chain9_central : CentralCache.state :=
  CentralCache.mkState chain9 PageCache.empty {[ 0 := 65536 ]} ∅.

(** A one-page span followed by a two-page span, both in use: what is left
    of a three-page span that was released and handed out again in two
    pieces. *)
Definition pc_two_used : PageCache.state :=
  PageCache.mkState
    {[ 1%positive := PageCache.mkSpan 65536 1 None;
       2%positive := PageCache.mkSpan 69632 2 None ]}
    ∅
    {[ 65536 := 1%positive; 69632 := 2%positive ]}.

(** * Proofs *)

Import PageCache CentralCache.

(** ** Memory and pointers *)

Lemma load_store_eq m a v : load (store m a v) a = v.
Proof. unfold load, store. by rewrite bool_decide_eq_true_2. Qed.

Lemma load_store_ne m a v x : x <> a -> load (store m a v) x = load m x.
Proof. intros. unfold load, store. by rewrite bool_decide_eq_false_2. Qed.

Lemma ptr_add_small p off : 0 <= p + off < 2 ^ 64 -> ptr_add p off = p + off.
Proof. intros. unfold ptr_add, wrap64. by apply Z.mod_small. Qed.

(** ** Size classes *)

Lemma land_mask8 x : 0 <= x < 2 ^ 64 -> Z.land x (2 ^ 64 - 8) = 8 * (x / 8).
Proof.
  intros Hx.
  replace (2 ^ 64 - 8) with (Z.shiftl (Z.ones 61) 3) by reflexivity.
  replace (8 * (x / 8)) with (Z.shiftl (Z.shiftr x 3) 3).
  2:{ rewrite Z.shiftl_mul_pow2, Z.shiftr_div_pow2 by lia. change (2 ^ 3) with 8. lia. }
  apply Z.bits_inj'. intros n Hn.
  rewrite Z.land_spec. rewrite (Z.shiftl_spec (Z.ones 61)) by lia. rewrite (Z.shiftl_spec (Z.shiftr x 3)) by lia.
  destruct (Z_lt_dec n 3) as [Hlt|Hge].
  - rewrite (Z.testbit_neg_r _ (n - 3)) by lia. rewrite (Z.testbit_neg_r _ (n - 3)) by lia. apply andb_false_r.
  - rewrite Z.shiftr_spec by lia. replace (n - 3 + 3) with n by lia.
    destruct (Z_lt_dec n 64) as [Hlt|Hge'].
    + rewrite Z.ones_spec_low by lia. apply andb_true_r.
    + rewrite Z.ones_spec_high by lia. rewrite andb_false_r.
      symmetry. apply Z.bits_above_log2; [lia|].
      destruct (Z.eq_dec x 0) as [->|]; [simpl; lia|].
      apply Z.log2_lt_pow2; try lia.
      apply Z.lt_le_trans with (2 ^ 64); [lia|]. apply Z.pow_le_mono_r; lia.
Qed.

(** C1: for [0 < s <= MAX_BYTES], [roundUp s] is the class size
    [(getIndex s + 1) * ALIGNMENT] of the class index of [s], and is at
    least [s]. *)
Theorem roundUp_getIndex s :
  0 < s <= MAX_BYTES ->
  SizeClass.roundUp s = (SizeClass.getIndex s + 1) * ALIGNMENT /\ s <= SizeClass.roundUp s.
Proof.
  unfold MAX_BYTES, SizeClass.roundUp, SizeClass.getIndex, ALIGNMENT, wrap64. intros Hs.
  change (Z.lnot (8 - 1) mod 2 ^ 64) with (2 ^ 64 - 8).
  assert (H64 : 2 ^ 64 = 18446744073709551616) by reflexivity.
  rewrite (Z.mod_small (s + 8 - 1)) by lia.
  rewrite land_mask8 by lia.
  pose proof (Z.div_mod (s + 8 - 1) 8 ltac:(lia)) as Hdm.
  pose proof (Z.mod_pos_bound (s + 8 - 1) 8 ltac:(lia)) as Hmb.
  destruct (Z_le_dec s 8).
  - rewrite Z.max_r by lia. change ((8 + 8 - 1) mod 2 ^ 64 / 8 - 1) with 0.
    change (0 mod 2 ^ 64) with 0. lia.
  - rewrite Z.max_l by lia. rewrite (Z.mod_small (s + 8 - 1)) by lia.
    rewrite (Z.mod_small ((s + 8 - 1) / 8 - 1)) by lia. lia.
Qed.

Lemma roundUp_getIndex_witness :
  0 < 13 <= MAX_BYTES /\
  (SizeClass.roundUp 13 = (SizeClass.getIndex 13 + 1) * ALIGNMENT /\
   13 <= SizeClass.roundUp 13).
Proof.
  split; [unfold MAX_BYTES; lia | apply (roundUp_getIndex 13); unfold MAX_BYTES; lia].
Defined.

(** ** The ordered map *)

Section LowerBound.
Context {V : Type}.
Implicit Types (l : list (Z * V)) (m : gmap Z V).

Lemma lb_fold_None n l :
  foldr (lower_bound_step n) None l = None -> forall kv, kv ∈ l -> kv.1 < n.
Proof.
  induction l as [|x l IH]; intros H kv Hin; [by apply elem_of_nil in Hin|].
  simpl in H. unfold lower_bound_step in H at 1.
  case_bool_decide as Hx.
  - destruct (foldr (lower_bound_step n) None l); [case_bool_decide|]; done.
  - apply elem_of_cons in Hin as [->|Hin]; [lia | by apply IH].
Qed.

Lemma lb_fold_Some n l best :
  foldr (lower_bound_step n) None l = Some best ->
  best ∈ l /\ n <= best.1 /\ forall kv, kv ∈ l -> n <= kv.1 -> best.1 <= kv.1.
Proof.
  revert best. induction l as [|x l IH]; intros best H; [done|].
  simpl in H. unfold lower_bound_step in H at 1.
  case_bool_decide as Hx.
  - destruct (foldr (lower_bound_step n) None l) as [b|] eqn:Hacc.
    + destruct (IH b eq_refl) as (Hb & Hnb & Hmin).
      case_bool_decide as Hlt; injection H as <-.
      * split; [apply elem_of_cons; by left|]. split; [done|].
        intros kv [->|Hin]%elem_of_cons Hkv; [lia|].
        specialize (Hmin kv Hin Hkv). lia.
      * split; [apply elem_of_cons; by right|]. split; [done|].
        intros kv [->|Hin]%elem_of_cons Hkv; [lia|]. by apply Hmin.
    + injection H as <-.
      split; [apply elem_of_cons; by left|]. split; [done|].
      intros kv [->|Hin]%elem_of_cons Hkv; [lia|].
      pose proof (lb_fold_None n l Hacc kv Hin). lia.
  - destruct (IH best H) as (Hb & Hnb & Hmin).
    split; [apply elem_of_cons; by right|]. split; [done|].
    intros kv [->|Hin]%elem_of_cons Hkv; [lia|]. by apply Hmin.
Qed.

(** [lower_bound] finds the entry with the least key that is at least [n]. *)
Lemma lower_bound_Some m n k v :
  lower_bound m n = Some (k, v) ->
  m !! k = Some v /\ n <= k /\
  forall k' v', m !! k' = Some v' -> n <= k' -> k <= k'.
Proof.
  intros H. apply (lb_fold_Some n (map_to_list m) (k, v)) in H as (Hin & Hn & Hmin).
  split; [by apply elem_of_map_to_list|]. split; [done|].
  intros k' v' Hk' Hn'. apply (Hmin (k', v')); [by apply elem_of_map_to_list | done].
Qed.

Lemma lower_bound_None m n :
  lower_bound m n = None -> forall k' v', m !! k' = Some v' -> k' < n.
Proof.
  intros H k' v' Hk'.
  apply (lb_fold_None n (map_to_list m) H (k', v')). by apply elem_of_map_to_list.
Qed.
End LowerBound.

(** ** Guards *)

(** C10: a batch request of zero blocks returns [nullptr] at once, whatever
    the class index and whether or not the class lock is held, and leaves
    the whole state as it was. *)
Theorem fetchRange_zero_batch os st index :
  fetchRange os st index 0 = Some (0, st).
Proof.
  unfold fetchRange. rewrite (bool_decide_eq_true_2 (0 = 0)) by reflexivity.
  by rewrite orb_true_r.
Qed.

(** C8: releasing a pointer that is not a key of [spanMap_] returns with
    the page cache unchanged. *)
Theorem deallocateSpan_unknown fuel pc ptr n :
  spanMap_ pc !! ptr = None -> deallocateSpan fuel pc ptr n = Some pc.
Proof. intros H. unfold deallocateSpan. by rewrite H. Qed.

Lemma deallocateSpan_unknown_witness :
  spanMap_ pc_free65 !! 4096 = None /\
  deallocateSpan 3 pc_free65 4096 65 = Some pc_free65.
Proof.
  split; [reflexivity | apply (deallocateSpan_unknown 3 pc_free65 4096 65); reflexivity].
Defined.

(** ** Page cache: serving and splitting a free span *)

Lemma fresh_span_not_live (h : gmap positive Span) : h !! fresh (dom h) = None.
Proof. apply not_elem_of_dom. apply is_fresh. Qed.

(** Serving a request from a free span with pages to spare. *)
Lemma allocateSpan_split_result os m pc n k S s :
  let S' := fresh (dom (spans pc)) in
  let rest := numPages s - n in
  let old_head := if decide (k = rest) then next s else bucket pc rest in
  lower_bound (freeSpans_ pc) n = Some (k, Some S) ->
  spans pc !! S = Some s ->
  0 <= n < numPages s ->
  0 <= pageAddr s ->
  pageAddr s + numPages s * PAGE_SIZE <= 2 ^ 64 ->
  exists pc',
    allocateSpan os m pc n = Some (pageAddr s, m, pc') /\
    spans pc !! S' = None /\
    spans pc' !! S' = Some (mkSpan (pageAddr s + n * PAGE_SIZE) rest old_head) /\
    freeSpans_ pc' !! rest = Some (Some S') /\
    spans pc' !! S = Some (set_numPages s n) /\
    spanMap_ pc' = <[pageAddr s := S]> (spanMap_ pc).
Proof.
  intros S' rest old_head Hlb HS Hn Hbase Hfit.
  assert (Hfresh : spans pc !! S' = None) by apply fresh_span_not_live.
  assert (HneS : S' <> S) by congruence.
  unfold allocateSpan. rewrite Hlb. cbn [mbind option_bind]. rewrite HS. cbn [mbind option_bind].
  rewrite bool_decide_eq_true_2 by lia. fold S'. fold rest.
  rewrite lookup_insert_eq. cbn [mbind option_bind pageAddr set_numPages].
  eexists. split; [done|]. cbn [spans freeSpans_ spanMap_].
  split; [done|]. split; [|split; [|split]].
  - rewrite lookup_insert_ne by done. rewrite lookup_insert_eq. f_equal. f_equal.
    + unfold PAGE_SIZE in *. unfold wrap64. rewrite Z.mod_small by lia.
      apply ptr_add_small. lia.
    + unfold old_head, bucket. destruct (next s) as [nx|]; case_decide as Hk.
      * subst k. by rewrite lookup_insert_eq.
      * by rewrite lookup_insert_ne.
      * subst k. by rewrite lookup_delete_eq.
      * by rewrite lookup_delete_ne.
  - by rewrite lookup_insert_eq.
  - by rewrite lookup_insert_eq.
  - done.
Qed.

(** C4 (amended): a request served from a free span [S] with more than [n]
    pages creates a tail span for the other pages at [S.base + n * 4096] and
    makes it the head of the bucket of its page count, cuts [S] to [n]
    pages, records [S] in [spanMap_] and returns [S.base].  The registry
    gains that one entry only: the tail span is not recorded in it. *)
Theorem allocateSpan_split os m pc n k S s :
  let S' := fresh (dom (spans pc)) in
  let rest := numPages s - n in
  let old_head := if decide (k = rest) then next s else bucket pc rest in
  lower_bound (freeSpans_ pc) n = Some (k, Some S) ->
  spans pc !! S = Some s ->
  0 <= n < numPages s ->
  0 <= pageAddr s ->
  pageAddr s + numPages s * PAGE_SIZE <= 2 ^ 64 ->
  exists pc',
    allocateSpan os m pc n = Some (pageAddr s, m, pc') /\
    spans pc !! S' = None /\
    spans pc' !! S' = Some (mkSpan (pageAddr s + n * PAGE_SIZE) rest old_head) /\
    freeSpans_ pc' !! rest = Some (Some S') /\
    spans pc' !! S = Some (set_numPages s n) /\
    spanMap_ pc' = <[pageAddr s := S]> (spanMap_ pc).
Proof. exact (allocateSpan_split_result os m pc n k S s). Qed.


Lemma lower_bound_free65 : lower_bound (freeSpans_ pc_free65) 8 = Some (65, Some 1%positive).
Proof. vm_compute. reflexivity. Qed.

Lemma allocateSpan_split_witness :
  exists pc',
    allocateSpan None dirty pc_free65 8 = Some (65536, dirty, pc') /\
    spans pc' !! 2%positive = Some (mkSpan 98304 57 None) /\
    spanMap_ pc' = <[65536 := 1%positive]> (spanMap_ pc_free65).
Proof.
  destruct (allocateSpan_split None dirty pc_free65 8 65 1%positive (mkSpan 65536 65 None))
    as (pc' & Ha & _ & Hs & _ & _ & Hm);
    [exact lower_bound_free65 | reflexivity | cbn; lia | cbn; lia | by vm_compute |].
  exists pc'. split; [exact Ha|]. split; [exact Hs | exact Hm].
Defined.

(** C4, counterexample: splitting the 65-page free span for an 8-page
    request leaves no registry entry at the tail's address. *)
Lemma split_tail_not_registered : ~ split_as_specified.
Proof.
  intros H.
  destruct (H None dirty pc_free65 8 65 1%positive (mkSpan 65536 65 None)
              lower_bound_free65 eq_refl ltac:(cbn; lia) ltac:(cbn; lia)
              ltac:(by vm_compute))
    as (pc' & S' & s' & Ha & _ & Haddr & _ & _ & Hreg & _).
  destruct (allocateSpan_split_result None dirty pc_free65 8 65 1%positive (mkSpan 65536 65 None)
              lower_bound_free65 eq_refl ltac:(cbn; lia) ltac:(cbn; lia)
              ltac:(by vm_compute))
    as (pc'' & Ha' & _ & _ & _ & _ & Hm).
  rewrite Ha in Ha'. injection Ha' as <-.
  rewrite Hm, Haddr in Hreg. cbn [pageAddr] in Hreg.
  rewrite lookup_insert_ne in Hreg by (unfold PAGE_SIZE; lia).
  discriminate Hreg.
Qed.

(** ** Page cache: span lists in the heap *)

Lemma is_chain_functional h : forall l1 l2 p,
  is_chain h p l1 -> is_chain h p l2 -> l1 = l2.
Proof.
  induction l1 as [|a l1 IH]; intros [|b l2] p H1 H2; simpl in *.
  - done.
  - destruct H2 as [H2 _]. congruence.
  - destruct H1 as [H1 _]. congruence.
  - destruct H1 as [-> H1], H2 as [[= <-] H2].
    destruct (h !! a); [|done]. f_equal. eauto.
Qed.

Lemma is_chain_suffix h l1 a l2 : forall p,
  is_chain h p (l1 ++ a :: l2) -> is_chain h (Some a) (a :: l2).
Proof.
  induction l1 as [|b l1 IH]; intros p H; simpl in *.
  - destruct H as [_ H]. done.
  - destruct H as [_ H]. destruct (h !! b); [|done]. eauto.
Qed.

(** A list that ends cannot visit a span twice. *)
Lemma is_chain_NoDup h l : forall p, is_chain h p l -> NoDup l.
Proof.
  induction l as [|a l IH]; intros p H; [constructor|].
  pose proof H as Hall. destruct H as [-> H].
  destruct (h !! a) as [s|] eqn:Ha; [|done].
  constructor; [|eauto].
  intros Hin. apply list_elem_of_split in Hin as (l1 & l2 & ->).
  pose proof (is_chain_suffix h (a :: l1) a l2 _ Hall) as Hsuf.
  pose proof (is_chain_functional h _ _ _ Hall Hsuf) as Heq.
  apply (f_equal length) in Heq. simpl in Heq. rewrite length_app in Heq.
  simpl in Heq. lia.
Qed.

Lemma is_chain_ext h h' l : forall p,
  (forall a, a ∈ l -> h' !! a = h !! a) ->
  is_chain h p l -> is_chain h' p l.
Proof.
  induction l as [|a l IH]; intros p Hext H; [done|].
  destruct H as [-> H]. simpl. split; [done|].
  rewrite Hext by (apply elem_of_cons; by left).
  destruct (h !! a); [|done].
  apply IH; [|done]. intros b Hb. apply Hext. apply elem_of_cons. by right.
Qed.

Lemma filter_ne_id (x : positive) (l : list positive) :
  x ∉ l -> filter (fun y => y <> x) l = l.
Proof.
  induction l as [|a l IH]; intros Hx; [done|].
  apply not_elem_of_cons in Hx as [Hne Hx].
  rewrite filter_cons_True by done. by rewrite IH.
Qed.

(** The list search: with enough fuel for the list it walks, it returns;
    a listed [nextSpan] is unlinked, an unlisted one leaves the heap alone. *)
Lemma unlinkAfter_spec h nextSpan : forall l prev fuel,
  is_chain h (Some prev) (prev :: l) -> prev <> nextSpan ->
  (length l < fuel)%nat ->
  exists h',
    unlinkAfter fuel h prev nextSpan = Some (h', bool_decide (nextSpan ∈ l)) /\
    is_chain h' (Some prev) (prev :: filter (fun y => y <> nextSpan) l) /\
    (forall x, x ∉ prev :: l -> h' !! x = h !! x) /\
    h' !! nextSpan = h !! nextSpan /\
    (nextSpan ∉ l -> h' = h).
Proof.
  induction l as [|q l IH]; intros prev fuel Hc Hne Hfuel.
  - destruct fuel as [|fuel]; [simpl in Hfuel; lia|].
    destruct Hc as [_ Hc]. destruct (h !! prev) as [sp|] eqn:Hp; [|done].
    simpl in Hc. exists h. cbn [unlinkAfter]. rewrite Hp. cbn [mbind option_bind]. rewrite Hc.
    rewrite bool_decide_eq_false_2 by (by intros ?%elem_of_nil).
    split; [done|]. split; [|done]. simpl. rewrite Hp. done.
  - destruct fuel as [|fuel]; [simpl in Hfuel; lia|].
    pose proof (is_chain_NoDup _ _ _ Hc) as Hnd.
    apply NoDup_cons in Hnd as [Hprev Hnd].
    apply NoDup_cons in Hnd as [Hq Hnd].
    apply not_elem_of_cons in Hprev as [Hpq Hprev].
    destruct Hc as [_ Hc]. destruct (h !! prev) as [sp|] eqn:Hp; [|done].
    destruct Hc as [Hnext Hc]. destruct (h !! q) as [sq|] eqn:Hq'; [|done].
    cbn [unlinkAfter]. rewrite Hp. cbn [mbind option_bind]. rewrite Hnext.
    destruct (decide (q = nextSpan)) as [->|Hqn].
    + rewrite Hq'. cbn [mbind option_bind].
      rewrite bool_decide_eq_true_2 by (apply elem_of_cons; by left).
      eexists. split; [done|].
      rewrite filter_cons_False by (intros ?; done).
      rewrite filter_ne_id by done.
      split; [|split; [|split]].
      * simpl. split; [done|]. rewrite lookup_insert_eq. simpl.
        eapply is_chain_ext; [|exact Hc].
        intros a Ha. apply lookup_insert_ne. intros ->. done.
      * intros x Hx. apply not_elem_of_cons in Hx as [Hx _]. by apply lookup_insert_ne.
      * by rewrite lookup_insert_ne.
      * intros Hnot. exfalso. apply Hnot. apply elem_of_cons. by left.
    + destruct (IH q fuel) as (h' & Hw & Hc' & Hout & Hns & Hid).
      { simpl. split; [done|]. by rewrite Hq'. }
      { done. }
      { simpl in Hfuel. lia. }
      exists h'. rewrite Hw.
      split.
      { do 2 f_equal. apply bool_decide_ext. rewrite elem_of_cons.
        split; [by right | intros [?|?]; [congruence | done]]. }
      rewrite filter_cons_True by done.
      split; [|split; [|split]].
      * simpl. split; [done|]. rewrite Hout by (apply not_elem_of_cons; done).
        rewrite Hp. split; [done|]. destruct Hc' as [_ Hc']. done.
      * intros x Hx. apply Hout. apply not_elem_of_cons in Hx as [_ Hx]. done.
      * done.
      * intros Hnot. apply Hid. intros Hin. apply Hnot. apply elem_of_cons. by right.
Qed.

(** ** Page cache: releasing a span *)

Section Release.
Variables (fuel : nat) (pc : PageCache.state) (S S' : positive) (s s' : Span).
Variables (nextAddr : Z) (l : list positive).
Hypothesis HS : spans pc !! S = Some s.
Hypothesis HS' : spans pc !! S' = Some s'.
Hypothesis Hne : S' <> S.
Hypothesis Hchain : is_chain (spans pc) (bucket pc (numPages s')) l.
Hypothesis HSl : S ∉ l.
Hypothesis Hfuel : (length l < fuel)%nat.

(** The neighbour found in the registry is looked for on the free list of
    its page count, and merged into [S] when it is there. *)
Lemma coalesce_spec :
  let merged := bool_decide (S' ∈ l) in
  let pages := if merged then wrap64 (numPages s + numPages s') else numPages s in
  let l' := filter (fun y => y <> S') l in
  exists pc1,
    coalesce fuel pc S nextAddr S' = Some pc1 /\
    spans pc1 !! S = Some (mkSpan (pageAddr s) pages (next s)) /\
    spans pc1 !! S' = (if merged then None else Some s') /\
    spanMap_ pc1 = (if merged then delete nextAddr (spanMap_ pc) else spanMap_ pc) /\
    is_chain (spans pc1) (bucket pc1 (numPages s')) l' /\
    (forall k, k <> numPages s' -> bucket pc1 k = bucket pc k).
Proof.
  intros merged pages l'.
  pose proof (is_chain_NoDup _ _ _ Hchain) as Hnd.
  assert (Hs_eta : s = mkSpan (pageAddr s) (numPages s) (next s)) by (by destruct s).
  unfold coalesce. rewrite HS'. cbn [mbind option_bind].
  fold (bucket pc (numPages s')).
  destruct (decide (bucket pc (numPages s') = Some S')) as [Hhead|Hnohead].
  - (* the neighbour heads its list *)
    rewrite Hhead in Hchain. destruct l as [|a l0]; [done|].
    destruct Hchain as [[= <-] Hc]. rewrite HS' in Hc.
    apply NoDup_cons in Hnd as [Hnotin Hnd].
    assert (Hm : merged = true)
      by (apply bool_decide_eq_true_2, elem_of_cons; by left).
    subst pages l'. rewrite Hm.
    rewrite filter_cons_False by (intros ?; done). rewrite filter_ne_id by done.
    cbn [mbind option_bind]. rewrite HS, HS'. cbn [mbind option_bind].
    eexists. split; [done|]. cbn [spans freeSpans_ spanMap_].
    split; [|split; [|split; [|split]]].
    + rewrite lookup_delete_ne by done. by rewrite lookup_insert_eq.
    + by rewrite lookup_delete_eq.
    + done.
    + unfold bucket. cbn [freeSpans_]. rewrite lookup_insert_eq. cbn [default].
      eapply is_chain_ext; [|exact Hc].
      intros a Ha. rewrite lookup_delete_ne by (intros ->; done).
      apply lookup_insert_ne. intros ->. apply HSl. apply elem_of_cons. by right.
    + intros k Hk. unfold bucket. cbn [freeSpans_].
      by rewrite !lookup_insert_ne by done.
  - destruct (bucket pc (numPages s')) as [prev|] eqn:Hb.
    + (* walk the list *)
      destruct l as [|a l0]; [done|].
      pose proof Hchain as Hc. destruct Hc as [[= <-] _].
      assert (Hprev : prev <> S') by congruence.
      apply NoDup_cons in Hnd as [Hnotin Hnd].
      destruct (unlinkAfter_spec (spans pc) S' l0 prev fuel)
        as (h' & Hw & Hc' & Hout & Hns & Hid);
        [done | done | simpl in Hfuel; lia |].
      rewrite Hw. cbn [mbind option_bind fst snd].
      assert (Hm : merged = bool_decide (S' ∈ l0)).
      { subst merged. apply bool_decide_ext. rewrite elem_of_cons.
        split; [intros [?|?]; [congruence | done] | by right]. }
      assert (Hl' : l' = prev :: filter (fun y => y <> S') l0)
        by (subst l'; by rewrite filter_cons_True).
      subst pages. rewrite Hm, Hl'. clear Hm Hl'.
      assert (HhS : h' !! S = Some s) by (rewrite Hout; done).
      assert (Hbk : forall fs, bucket (PageCache.mkState h' (<[numPages s' := Some prev]> (freeSpans_ pc)) fs) (numPages s') = Some prev).
      { intros fs. unfold bucket. cbn [freeSpans_]. by rewrite lookup_insert_eq. }
      assert (Hbo : forall h fs k, k <> numPages s' ->
                bucket (PageCache.mkState h (<[numPages s' := Some prev]> (freeSpans_ pc)) fs) k = bucket pc k).
      { intros h fs k Hk. unfold bucket. cbn [freeSpans_]. by rewrite lookup_insert_ne. }
      destruct (bool_decide (S' ∈ l0)) eqn:Hin.
      * rewrite HhS, Hns, HS'. cbn [mbind option_bind].
        eexists. split; [done|]. cbn [spans spanMap_].
        split; [|split; [|split; [|split]]].
        -- rewrite lookup_delete_ne by done. by rewrite lookup_insert_eq.
        -- by rewrite lookup_delete_eq.
        -- done.
        -- unfold bucket. cbn [freeSpans_ spans]. rewrite lookup_insert_eq. cbn [default].
           eapply is_chain_ext; [|exact Hc'].
           intros a Ha. rewrite lookup_delete_ne.
           ++ apply lookup_insert_ne. intros ->. apply HSl.
              apply elem_of_cons in Ha as [->|Ha]; [apply elem_of_cons; by left|].
              apply list_elem_of_filter in Ha as [_ Ha]. apply elem_of_cons. by right.
           ++ intros ->. apply elem_of_cons in Ha as [?|Ha]; [done|].
              apply list_elem_of_filter in Ha as [Ha _]. done.
        -- intros k Hk. by apply Hbo.
      * apply bool_decide_eq_false_1 in Hin.
        rewrite Hid in * by done.
        eexists. split; [done|]. cbn [spans spanMap_].
        split; [by rewrite HS, Hs_eta at 1|]. split; [done|]. split; [done|].
        split; [by rewrite Hbk|]. intros k Hk. by apply Hbo.
    + (* an empty list *)
      destruct l as [|a l0]; [|by destruct Hchain].
      subst pages merged l'.
      rewrite bool_decide_eq_false_2 by (by intros ?%elem_of_nil).
      cbn [mbind option_bind]. eexists. split; [done|]. cbn [spans spanMap_].
      split; [by rewrite HS, Hs_eta at 1|]. split; [done|]. split; [done|].
      split.
      * unfold bucket. cbn [freeSpans_]. by rewrite lookup_insert_eq.
      * intros k Hk. unfold bucket. cbn [freeSpans_]. by rewrite lookup_insert_ne.
Qed.
End Release.

Lemma is_chain_head h p l : is_chain h p l -> p = head l.
Proof. destruct l; simpl; [done | by intros [-> _]]. Qed.

(** Releasing a registered span when no span is registered at the
    forward-neighbour address. *)
Lemma deallocateSpan_no_neighbour fuel pc ptr n S s :
  spanMap_ pc !! ptr = Some S -> spans pc !! S = Some s ->
  spanMap_ pc !! ptr_add ptr (wrap64 (n * PAGE_SIZE)) = None ->
  deallocateSpan fuel pc ptr n =
    Some (PageCache.mkState (<[S := set_next s (bucket pc (numPages s))]> (spans pc))
                            (<[numPages s := Some S]> (freeSpans_ pc))
                            (spanMap_ pc)).
Proof.
  intros Hp HS Hn. unfold deallocateSpan. rewrite Hp, Hn.
  cbn [mbind option_bind]. rewrite HS. done.
Qed.

(** Releasing a registered span when a span is registered at the
    forward-neighbour address. *)
Lemma deallocateSpan_neighbour fuel pc ptr n S s S' s' l :
  let merged := bool_decide (S' ∈ l) in
  let pages := if merged then wrap64 (numPages s + numPages s') else numPages s in
  let l' := filter (fun y => y <> S') l in
  let nx := if decide (pages = numPages s') then head l' else bucket pc pages in
  spanMap_ pc !! ptr = Some S -> spans pc !! S = Some s ->
  spanMap_ pc !! ptr_add ptr (wrap64 (n * PAGE_SIZE)) = Some S' ->
  spans pc !! S' = Some s' -> S' <> S ->
  is_chain (spans pc) (bucket pc (numPages s')) l -> S ∉ l ->
  (length l < fuel)%nat ->
  exists pc',
    deallocateSpan fuel pc ptr n = Some pc' /\
    spans pc' !! S = Some (mkSpan (pageAddr s) pages nx) /\
    freeSpans_ pc' !! pages = Some (Some S) /\
    spanMap_ pc' =
      (if merged then delete (ptr_add ptr (wrap64 (n * PAGE_SIZE))) (spanMap_ pc)
       else spanMap_ pc) /\
    spans pc' !! S' = (if merged then None else Some s') /\
    is_chain (spans pc') (bucket pc' (numPages s'))
             (if decide (pages = numPages s') then S :: l' else l').
Proof.
  intros merged pages l' nx Hp HS Hn HS' Hne Hc HSl Hfuel.
  destruct (coalesce_spec fuel pc S S' s s' (ptr_add ptr (wrap64 (n * PAGE_SIZE))) l)
    as (pc1 & Hco & H1 & H2 & H3 & H4 & H5); try done.
  cbv zeta in H1, H2, H3, H4. fold merged in H1, H2, H3. fold pages in H1. fold l' in H4.
  unfold deallocateSpan. rewrite Hp, Hn, Hco. cbn [mbind option_bind].
  rewrite H1. cbn [mbind option_bind numPages set_next pageAddr].
  assert (HSl' : S ∉ l').
  { intros Hin. apply list_elem_of_filter in Hin as [_ Hin]. done. }
  assert (Hnx : bucket pc1 pages = nx).
  { unfold nx. case_decide as Hk.
    - rewrite Hk. by apply is_chain_head with (spans pc1).
    - by apply H5. }
  fold (bucket pc1 pages). rewrite Hnx.
  eexists. split; [done|]. cbn [spans freeSpans_ spanMap_].
  split; [by rewrite lookup_insert_eq|].
  split; [by rewrite lookup_insert_eq|].
  split; [done|].
  split; [by rewrite lookup_insert_ne|].
  unfold bucket at 1. cbn [freeSpans_].
  case_decide as Hk.
  - rewrite <- Hk in H4 |- *. rewrite lookup_insert_eq. cbn [default is_chain].
    split; [done|]. rewrite lookup_insert_eq. cbn [next].
    cbn [next set_next]. rewrite <- Hnx.
    eapply is_chain_ext; [|exact H4].
    intros a Ha. apply lookup_insert_ne. by intros ->.
  - rewrite lookup_insert_ne by done. fold (bucket pc1 (numPages s')).
    eapply is_chain_ext; [|exact H4].
    intros a Ha. apply lookup_insert_ne. by intros ->.
Qed.

(** C6 (amended): let any span registered at [ptr + n * 4096] be a live
    span other than [S] whose free-span list is a null-terminated list that
    does not hold [S].  Releasing a registered span [S] returns; [S] ends up
    at the head of the free-span list for its page count, in front of what
    that list held; when the span [S'] registered in [spanMap_] at
    [ptr + n * 4096] is on the free-span list for its page count, [S'] is
    unlinked from that list, removed from [spanMap_] and disposed of, and
    the page count of [S] grows by that of [S'] (in [size_t] arithmetic);
    when no span registered there is free, the page count of [S] and the
    registry are unchanged. *)
Theorem deallocateSpan_coalesces fuel pc ptr n S s :
  let nextAddr := ptr_add ptr (wrap64 (n * PAGE_SIZE)) in
  spanMap_ pc !! ptr = Some S -> spans pc !! S = Some s ->
  (forall S', spanMap_ pc !! nextAddr = Some S' ->
     S' <> S /\
     exists s' l, spans pc !! S' = Some s' /\
                  is_chain (spans pc) (bucket pc (numPages s')) l /\
                  (S ∉ l) /\ (length l < fuel)%nat) ->
  exists pc' sF,
    deallocateSpan fuel pc ptr n = Some pc' /\
    spans pc' !! S = Some sF /\ pageAddr sF = pageAddr s /\
    freeSpans_ pc' !! numPages sF = Some (Some S) /\
    (forall S' s' l,
       spanMap_ pc !! nextAddr = Some S' -> spans pc !! S' = Some s' ->
       is_chain (spans pc) (bucket pc (numPages s')) l -> S' ∈ l ->
       numPages sF = wrap64 (numPages s + numPages s') /\
       spanMap_ pc' = delete nextAddr (spanMap_ pc) /\
       spans pc' !! S' = None /\
       next sF = (if decide (numPages sF = numPages s')
                  then head (filter (fun y => y <> S') l)
                  else bucket pc (numPages sF)) /\
       is_chain (spans pc') (bucket pc' (numPages s'))
                (if decide (numPages sF = numPages s')
                 then S :: filter (fun y => y <> S') l
                 else filter (fun y => y <> S') l)) /\
    ((forall S', spanMap_ pc !! nextAddr = Some S' -> ~ on_free_list pc S') ->
     numPages sF = numPages s /\ next sF = bucket pc (numPages s) /\
     spanMap_ pc' = spanMap_ pc).
Proof.
  intros nextAddr Hp HS Hwf.
  destruct (spanMap_ pc !! nextAddr) as [S0|] eqn:Hn.
  - destruct (Hwf S0 eq_refl) as (Hne & s0 & l0 & HS0 & Hc0 & HSl & Hfuel).
    destruct (deallocateSpan_neighbour fuel pc ptr n S s S0 s0 l0)
      as (pc' & Hd & H1 & H2 & H3 & H4 & H5); try done.
    cbv zeta in H1, H2, H3, H4, H5.
    destruct (bool_decide (S0 ∈ l0)) eqn:Hin; eexists pc', _;
      (split; [done|]; split; [exact H1|]; split; [done|]; split; [exact H2|]).
    + apply bool_decide_eq_true_1 in Hin. split.
      * intros S' s' l [= <-] HS' Hc Hin'.
        assert (s' = s0) as -> by congruence.
        rewrite (is_chain_functional _ _ _ _ Hc Hc0).
        cbn [numPages next]. done.
      * intros Hfree. exfalso. apply (Hfree S0 eq_refl). by exists s0, l0.
    + apply bool_decide_eq_false_1 in Hin. split.
      * intros S' s' l [= <-] HS' Hc Hin'.
        assert (s' = s0) as -> by congruence.
        rewrite (is_chain_functional _ _ _ _ Hc Hc0) in Hin'. done.
      * intros _. cbn [numPages next]. split; [done|]. split; [|done].
        case_decide as Hk; [|done].
        rewrite filter_ne_id by done. rewrite Hk.
        symmetry. by apply is_chain_head with (spans pc).
  - rewrite (deallocateSpan_no_neighbour fuel pc ptr n S s) by done.
    eexists _, _. split; [done|]. cbn [spans freeSpans_ spanMap_].
    split; [by rewrite lookup_insert_eq|]. split; [done|].
    split; [by rewrite lookup_insert_eq|]. split; [|done].
    intros S' s' l [=].
Qed.

(** C5 (amended): let [S] be a registered span that is released, and let
    any span registered at the forward-neighbour address [ptr + n * 4096] be
    a live span other than [S] whose free-span list is a null-terminated list
    that does not hold [S].  Then the release returns and puts [S] at the
    head of the list for its page count; a span registered at that address
    and on the free-span list for its page count has been coalesced into
    [S]: the page count of [S] has grown by its pages (in [size_t]
    arithmetic), and it is gone from the heap and from the registry; and
    afterwards no span registered at that address is on a free-span list. *)
Theorem deallocateSpan_forward_neighbour fuel pc ptr n S s :
  let nextAddr := ptr_add ptr (wrap64 (n * PAGE_SIZE)) in
  spanMap_ pc !! ptr = Some S -> spans pc !! S = Some s ->
  (forall S', spanMap_ pc !! nextAddr = Some S' ->
     S' <> S /\
     exists s' l, spans pc !! S' = Some s' /\
                  is_chain (spans pc) (bucket pc (numPages s')) l /\
                  (S ∉ l) /\ (length l < fuel)%nat) ->
  exists pc' sF,
    deallocateSpan fuel pc ptr n = Some pc' /\
    spans pc' !! S = Some sF /\ pageAddr sF = pageAddr s /\
    freeSpans_ pc' !! numPages sF = Some (Some S) /\
    (forall S' s',
       spanMap_ pc !! nextAddr = Some S' -> spans pc !! S' = Some s' ->
       on_free_list pc S' ->
       numPages sF = wrap64 (numPages s + numPages s') /\
       spans pc' !! S' = None /\
       spanMap_ pc' !! nextAddr = None) /\
    (forall S'', spanMap_ pc' !! nextAddr = Some S'' -> ~ on_free_list pc' S'').
Proof.
  intros nextAddr Hp HS Hwf.
  destruct (spanMap_ pc !! nextAddr) as [S0|] eqn:Hn.
  - destruct (Hwf S0 eq_refl) as (Hne & s0 & l0 & HS0 & Hc0 & HSl & Hfuel).
    destruct (deallocateSpan_neighbour fuel pc ptr n S s S0 s0 l0)
      as (pc' & Hd & H1 & H2 & H3 & H4 & H5); try done.
    cbv zeta in H1, H2, H3, H4, H5.
    fold nextAddr in H3.
    exists pc'. eexists.
    split; [done|]. split; [exact H1|]. split; [done|]. split; [exact H2|].
    destruct (bool_decide (S0 ∈ l0)) eqn:Hin.
    + split.
      * intros S' s' [= <-] HS' _.
        assert (s' = s0) as -> by congruence.
        cbn [numPages]. split; [done|]. split; [done|].
        by rewrite H3, lookup_delete_eq.
      * intros S'' Hreg. rewrite H3, lookup_delete_eq in Hreg. done.
    + apply bool_decide_eq_false_1 in Hin. split.
      * intros S' s' [= <-] HS' (s1 & l1 & Hs1 & Hc1 & Hin1).
        assert (s1 = s0) as -> by congruence.
        rewrite (is_chain_functional _ _ _ _ Hc1 Hc0) in Hin1. done.
      * intros S'' Hreg.
        rewrite H3, Hn in Hreg. injection Hreg as <-.
        intros (s1 & l1 & Hs1 & Hc1 & Hin1).
        rewrite H4 in Hs1. injection Hs1 as <-.
        rewrite (is_chain_functional _ _ _ _ Hc1 H5) in Hin1.
        rewrite filter_ne_id in Hin1 by done.
        case_decide; [apply elem_of_cons in Hin1 as [?|?]|]; done.
  - rewrite (deallocateSpan_no_neighbour fuel pc ptr n S s) by done.
    eexists _, _. split; [done|]. cbn [spans freeSpans_ spanMap_].
    split; [by rewrite lookup_insert_eq|]. split; [done|].
    split; [by rewrite lookup_insert_eq|]. split.
    + intros S' s' [=].
    + intros S''. by rewrite Hn.
Qed.

Lemma pc_pair_neighbour S' :
  spanMap_ pc_pair !! ptr_add 65536 (wrap64 (1 * PAGE_SIZE)) = Some S' ->
  S' <> 1%positive /\
  exists s' l, spans pc_pair !! S' = Some s' /\
               is_chain (spans pc_pair) (bucket pc_pair (numPages s')) l /\
               (1%positive ∉ l) /\ (length l < 3)%nat.
Proof.
  intros H. vm_compute in H. injection H as <-. split; [done|].
  exists (mkSpan 69632 1 None), [2%positive].
  split; [reflexivity|]. split; [by vm_compute|].
  split; [|simpl; lia].
  intros Hin. apply elem_of_cons in Hin as [?|Hin]; [done|].
  by apply elem_of_nil in Hin.
Qed.

Lemma deallocateSpan_coalesces_witness :
  exists pc' sF,
    deallocateSpan 3 pc_pair 65536 1 = Some pc' /\
    spans pc' !! 1%positive = Some sF /\ pageAddr sF = 65536 /\
    freeSpans_ pc' !! numPages sF = Some (Some 1%positive) /\
    numPages sF = wrap64 (1 + 1) /\
    spans pc' !! 2%positive = None.
Proof.
  destruct (deallocateSpan_coalesces 3 pc_pair 65536 1 1%positive (mkSpan 65536 1 None))
    as (pc' & sF & Hd & Hs & Ha & Hf & Hm & _);
    [reflexivity | reflexivity | exact pc_pair_neighbour |].
  destruct (Hm 2%positive (mkSpan 69632 1 None) [2%positive])
    as (Hn & _ & Hgone & _);
    [reflexivity | reflexivity | by vm_compute | apply elem_of_cons; by left |].
  exists pc', sF. repeat split; assumption.
Defined.

(** The second span of [pc_pair] is free. *)
Lemma pc_pair_neighbour_free :
  on_free_list pc_pair 2%positive.
Proof.
  exists (mkSpan 69632 1 None), [2%positive].
  split; [reflexivity|]. split; [by vm_compute|].
  apply elem_of_cons. by left.
Qed.

Lemma deallocateSpan_forward_neighbour_witness :
  exists pc' sF,
    deallocateSpan 3 pc_pair 65536 1 = Some pc' /\
    spans pc' !! 1%positive = Some sF /\
    numPages sF = wrap64 (1 + 1) /\
    spans pc' !! 2%positive = None /\
    spanMap_ pc' !! ptr_add 65536 (wrap64 (1 * PAGE_SIZE)) = None /\
    forall S'', spanMap_ pc' !! ptr_add 65536 (wrap64 (1 * PAGE_SIZE)) = Some S'' ->
                ~ on_free_list pc' S''.
Proof.
  destruct (deallocateSpan_forward_neighbour 3 pc_pair 65536 1 1%positive
              (mkSpan 65536 1 None))
    as (pc' & sF & Hd & Hs & _ & _ & Hm & Hno);
    [reflexivity | reflexivity | exact pc_pair_neighbour |].
  destruct (Hm 2%positive (mkSpan 69632 1 None))
    as (Hn & Hgone & Hreg);
    [reflexivity | reflexivity | exact pc_pair_neighbour_free |].
  exists pc', sF. repeat split; assumption.
Defined.

(** The example page caches are states the page layer reaches from its
    initial state. *)
Lemma pc_free65_reached :
  snd <$> run_page 3 [Allocate (Some 65536) 65; Deallocate 65536 65]
                   (zeroed, PageCache.empty)
    = Some pc_free65.
Proof. vm_compute. reflexivity. Qed.

Lemma pc_pair_reached :
  snd <$> run_page 3 [Allocate (Some 65536) 2; Deallocate 65536 2;
                      Allocate None 1; Allocate None 1; Deallocate 69632 1]
                   (zeroed, PageCache.empty)
    = Some pc_pair.
Proof. vm_compute. reflexivity. Qed.

Lemma run_release_in_order :
  snd <$> run_page 3 ops_release_in_order (fun _ => 0, PageCache.empty)
    = Some pc_both_free.
Proof. vm_compute. reflexivity. Qed.

(** C5, counterexample: two spans released in address order are both free
    and adjacent. *)
Lemma adjacent_free_spans_coexist : ~ never_adjacent_free_as_specified.
Proof.
  intros H.
  pose proof run_release_in_order as Hrun.
  destruct (run_page 3 ops_release_in_order (fun _ => 0, PageCache.empty))
    as [[m pc]|] eqn:E; [|discriminate Hrun].
  injection Hrun as ->.
  apply (H _ _ _ _ E 1%positive 2%positive (mkSpan 65536 1 None)
           (mkSpan 69632 1 (Some 1%positive))).
  - exists (mkSpan 65536 1 None), [2%positive; 1%positive].
    split; [reflexivity|]. split; [vm_compute; repeat split; reflexivity|].
    apply elem_of_cons. right. apply elem_of_cons. left. reflexivity.
  - exists (mkSpan 69632 1 (Some 1%positive)), [2%positive; 1%positive].
    split; [reflexivity|]. split; [vm_compute; repeat split; reflexivity|].
    apply elem_of_cons. left. reflexivity.
  - reflexivity.
  - reflexivity.
  - reflexivity.
Qed.

(** [pc_split65] is reached from the initial state: a 65-page span from
    the OS is released and an 8-page span is then cut from it. *)
Lemma pc_split65_reached :
  snd <$> run_page 3 [Allocate (Some 65536) 65; Deallocate 65536 65; Allocate None 8]
                   (zeroed, PageCache.empty)
    = Some pc_split65.
Proof. vm_compute. reflexivity. Qed.

(** Releasing the 8-page span of [pc_split65]: nothing is registered
    at the address where it ends. *)
Lemma pc_split65_release :
  deallocateSpan 3 pc_split65 65536 8
    = Some (PageCache.mkState
              (<[1%positive := set_next (mkSpan 65536 8 None)
                                 (bucket pc_split65 (numPages (mkSpan 65536 8 None)))]>
                 (spans pc_split65))
              (<[numPages (mkSpan 65536 8 None) := Some 1%positive]> (freeSpans_ pc_split65))
              (spanMap_ pc_split65)).
Proof.
  apply (deallocateSpan_no_neighbour 3 pc_split65 65536 8 1%positive (mkSpan 65536 8 None));
    reflexivity.
Qed.

(** C6, counterexample: the tail left by a split exists at
    [ptr + n * 4096] and is on the free-span list for its page count, and a
    release of the span in front of it merges nothing. *)
Lemma free_tail_not_coalesced : ~ release_coalesces_as_specified.
Proof.
  intros H.
  destruct (H 3%nat pc_split65 65536 8 1%positive (mkSpan 65536 8 None)
              2%positive (mkSpan 98304 57 None) [2%positive])
    as (pc' & sF & Hd & Hs & Hn & _).
  - reflexivity.
  - reflexivity.
  - reflexivity.
  - reflexivity.
  - by vm_compute.
  - apply elem_of_cons. by left.
  - discriminate.
  - intros Hin. apply elem_of_cons in Hin as [Heq|Hin]; [discriminate Heq|].
    by apply elem_of_nil in Hin.
  - simpl. lia.
  - rewrite pc_split65_release in Hd. injection Hd as <-.
    cbn [spans] in Hs. rewrite lookup_insert_eq in Hs. injection Hs as <-.
    discriminate Hn.
Qed.

(** ** Central cache: refilling from the page cache *)

(** Under the guards of the refill path, [fetchRange] is the page request
    followed by the carving step. *)
Lemma fetchRange_refill os st index batchNum r m1 pc1 :
  index < FREE_LIST_SIZE -> batchNum <> 0 ->
  locked st index = false -> head_of st index = 0 ->
  fetchFromPageCache os (mem st) (page st) ((index + 1) * ALIGNMENT) = Some (r, m1, pc1) ->
  fetchRange os st index batchNum =
    if bool_decide (r = 0) then
      Some (0, CentralCache.mkState m1 pc1 (centralFreeList_ st)
                 (<[index := false]> (<[index := true]> (locks_ st))))
    else
      Some (r, CentralCache.mkState
                 (carve_span m1 (centralFreeList_ st) r ((index + 1) * ALIGNMENT) index batchNum).1
                 pc1
                 (carve_span m1 (centralFreeList_ st) r ((index + 1) * ALIGNMENT) index batchNum).2
                 (<[index := false]> (<[index := true]> (locks_ st)))).
Proof.
  intros Hi Hb Hl Hh Hp. unfold fetchRange.
  rewrite bool_decide_eq_false_2 by lia. rewrite (bool_decide_eq_false_2 (batchNum = 0)) by done.
  simpl. rewrite Hl, Hh. rewrite (bool_decide_eq_true_2 (0 = 0)) by done.
  rewrite Hp. simpl. case_bool_decide; [done|].
  by destruct (carve_span _ _ _ _ _ _).
Qed.

Lemma locked_released (st : CentralCache.state) m pc heads index :
  locked (CentralCache.mkState m pc heads (<[index := false]> (<[index := true]> (locks_ st)))) index = false.
Proof. unfold locked. simpl. by rewrite lookup_insert_eq. Qed.

Section Carving.
Variables (start size : Z).
Hypothesis Hstart : 0 < start.
Hypothesis Hsize : 0 < size.

Lemma block_addr j bound :
  0 <= j -> j <= bound -> start + bound * size < 2 ^ 64 ->
  ptr_add start (j * size) = start + j * size.
Proof. intros. apply ptr_add_small. nia. Qed.

Lemma link_blocks_miss n : forall m i x,
  1 <= i -> start + (i + Z.of_nat n - 1) * size < 2 ^ 64 ->
  (forall j, i - 1 <= j < i - 1 + Z.of_nat n -> x <> start + j * size) ->
  load (link_blocks n m start size i) x = load m x.
Proof.
  induction n as [|n IH]; intros m i x Hi Hb Hx; [done|]. simpl.
  rewrite IH by (try lia; intros; apply Hx; lia).
  rewrite load_store_ne; [done|].
  rewrite (block_addr (i - 1) (i + Z.of_nat (S n) - 1)) by lia.
  apply Hx. lia.
Qed.

Lemma link_blocks_hit n : forall m i j,
  1 <= i -> start + (i + Z.of_nat n - 1) * size < 2 ^ 64 ->
  i - 1 <= j < i - 1 + Z.of_nat n ->
  load (link_blocks n m start size i) (start + j * size) = start + (j + 1) * size.
Proof.
  induction n as [|n IH]; intros m i j Hi Hb Hj; [lia|]. simpl.
  destruct (Z.eq_dec j (i - 1)) as [->|Hne].
  - rewrite link_blocks_miss by (try lia; intros; nia).
    rewrite (block_addr (i - 1) (i + Z.of_nat (S n) - 1)) by lia.
    rewrite load_store_eq.
    rewrite (block_addr i (i + Z.of_nat (S n) - 1)) by lia.
    f_equal. f_equal. lia.
  - apply IH; lia.
Qed.

Lemma is_list_block_seq m n : forall i,
  0 <= i ->
  (forall j, i <= j < i + Z.of_nat n - 1 ->
             load m (start + j * size) = start + (j + 1) * size) ->
  load m (start + (i + Z.of_nat n - 1) * size) = 0 ->
  (0 < n)%nat ->
  is_list m (start + i * size) (block_seq start size i n).
Proof.
  induction n as [|n IH]; intros i Hi Hlink Hend Hn; [lia|].
  simpl. split; [done|]. split; [nia|].
  destruct n as [|n'].
  - simpl. rewrite <- Hend. f_equal. f_equal. lia.
  - rewrite Hlink by lia. apply IH; try lia.
    + intros j Hj. apply Hlink. lia.
    + rewrite <- Hend. f_equal. f_equal. lia.
Qed.

Lemma elem_of_block_seq n : forall i x,
  x ∈ block_seq start size i n ->
  exists j, i <= j < i + Z.of_nat n /\ x = start + j * size.
Proof.
  induction n as [|n IH]; intros i x Hx; simpl in Hx.
  - by apply elem_of_nil in Hx.
  - apply elem_of_cons in Hx as [->|Hx].
    + exists i. lia.
    + apply IH in Hx as (j & Hj & ->). exists j. lia.
Qed.

Lemma is_list_ext m m' l : forall p,
  (forall a, a ∈ l -> load m' a = load m a) ->
  is_list m p l -> is_list m' p l.
Proof.
  induction l as [|a l IH]; intros p Hext Hl; [done|].
  destruct Hl as (-> & Hnz & Hl). simpl. split; [done|]. split; [done|].
  rewrite Hext by (apply elem_of_cons; by left).
  apply IH; [|done]. intros b Hb. apply Hext. apply elem_of_cons. by right.
Qed.

(** One linking phase: blocks [lo .. hi-1] are chained and terminated. *)
Lemma phase_spec m lo hi n i :
  0 <= lo < hi -> start + hi * size <= 2 ^ 64 ->
  i = lo + 1 -> n = Z.to_nat (hi - lo - 1) ->
  let m' := store (link_blocks n m start size i) (ptr_add start ((hi - 1) * size)) 0 in
  is_list m' (start + lo * size) (block_seq start size lo (Z.to_nat (hi - lo))) /\
  load m' (start + (hi - 1) * size) = 0 /\
  (forall x, (forall j, lo <= j < hi -> x <> start + j * size) -> load m' x = load m x).
Proof.
  intros Hlo Hb -> -> m'.
  assert (Hend : ptr_add start ((hi - 1) * size) = start + (hi - 1) * size)
    by (apply (block_addr (hi - 1) (hi - 1)); nia).
  assert (Hfuel : start + (lo + 1 + Z.of_nat (Z.to_nat (hi - lo - 1)) - 1) * size < 2 ^ 64)
    by (rewrite Z2Nat.id by lia; nia).
  assert (Hlast : load m' (start + (hi - 1) * size) = 0).
  { unfold m'. rewrite Hend. apply load_store_eq. }
  split; [|split; [done|]].
  - replace (hi - 1) with (lo + Z.of_nat (Z.to_nat (hi - lo)) - 1) in Hlast by lia.
    apply is_list_block_seq; [lia| |done|lia].
    intros j Hj. unfold m'. rewrite Hend.
    rewrite load_store_ne by nia.
    apply link_blocks_hit; [lia|done|lia].
  - intros x Hx. unfold m'. rewrite Hend.
    rewrite load_store_ne by (apply Hx; lia).
    apply link_blocks_miss; [lia|done|].
    intros j Hj. apply Hx. lia.
Qed.
End Carving.

Lemma total_blocks_bound size :
  0 < size -> (SPAN_PAGES * PAGE_SIZE) / size * size <= 32768.
Proof.
  intros. change (SPAN_PAGES * PAGE_SIZE) with 32768.
  pose proof (Z.mul_div_le 32768 size ltac:(lia)). lia.
Qed.

(** What the carving step leaves, with [T] and [A] the code's [totalBlocks]
    and [allocBlocks]. *)
Lemma carve_span_spec m1 heads start size index batchNum :
  0 < start -> start + SPAN_PAGES * PAGE_SIZE <= 2 ^ 64 -> 0 < size -> 0 < batchNum ->
  let T := (SPAN_PAGES * PAGE_SIZE) / size in
  let A := Z.min batchNum T in
  let r := carve_span m1 heads start size index batchNum in
  (1 < A -> is_list r.1 start (block_seq start size 0 (Z.to_nat A)) /\
            load r.1 (start + (A - 1) * size) = 0) /\
  (A <= 1 -> load r.1 start = load m1 start) /\
  (A < T -> r.2 = <[index := start + A * size]> heads /\
            is_list r.1 (start + A * size) (block_seq start size A (Z.to_nat (T - A)))) /\
  (T <= A -> r.2 = heads).
Proof.
  intros Hstart Hfit Hsize Hbatch T A r.
  pose proof (total_blocks_bound size Hsize) as HT. fold T in HT.
  assert (HT0 : 0 <= T) by (apply Z.div_pos; [done | lia]).
  assert (HA : 0 <= A <= T) by lia.
  change (SPAN_PAGES * PAGE_SIZE) with 32768 in Hfit.
  assert (HfitT : start + T * size <= 2 ^ 64) by lia.
  assert (HfitA : start + A * size <= 2 ^ 64) by nia.
  unfold r, carve_span. fold T. fold A.
  set (m2 := if bool_decide (1 < A) then _ else m1).
  assert (Hm2 : (1 < A -> is_list m2 start (block_seq start size 0 (Z.to_nat A)) /\
                           load m2 (start + (A - 1) * size) = 0) /\
                (forall x, (forall j, 0 <= j < A -> x <> start + j * size) -> load m2 x = load m1 x) /\
                (A <= 1 -> m2 = m1)).
  { unfold m2. case_bool_decide as HA1.
    - destruct (phase_spec start size Hstart Hsize m1 0 A (Z.to_nat (A - 1)) 1)
        as (Hl & He & Hm); [lia|done|done|f_equal; lia|].
      replace (start + 0 * size) with start in Hl by lia.
      replace (A - 0) with A in Hl by lia.
      split; [done|]. split; [done|lia].
    - split; [lia|]. split; [done|done]. }
  destruct Hm2 as (Hfirst & Hm2out & Hm2id).
  case_bool_decide as HAT; simpl.
  - destruct (phase_spec start size Hstart Hsize m2 A T (Z.to_nat (T - (A + 1))) (A + 1))
      as (Hl & He & Hm); [lia|done|done|f_equal; lia|].
    split; [|split; [|split]].
    + intros HA1. destruct (Hfirst HA1) as [Hl1 He1]. split.
      * eapply is_list_ext; [|exact Hl1].
        intros a Ha. apply Hm. intros j Hj ->.
        apply (elem_of_block_seq start size) in Ha as (j' & Hj' & Heq). nia.
      * rewrite Hm by (intros j Hj; nia). done.
    + intros HA1. rewrite Hm by (intros j Hj; nia). by rewrite Hm2id.
    + intros _. split; [|done].
      by rewrite (block_addr start size Hstart Hsize A (T - 1)) by nia.
    + lia.
  - split; [|split; [|split]].
    + done.
    + intros HA1. by rewrite Hm2id.
    + lia.
    + done.
Qed.

Lemma class_size_bounds index :
  0 <= index < FREE_LIST_SIZE -> 8 <= (index + 1) * ALIGNMENT <= 262144.
Proof. unfold FREE_LIST_SIZE, MAX_BYTES, ALIGNMENT. change (256 * 1024 / 8) with 32768. lia. Qed.

Lemma fetchFromPageCache_pages os m pc size :
  0 <= size <= 262144 ->
  fetchFromPageCache os m pc size = allocateSpan os m pc (pages_for size).
Proof.
  intros Hs. unfold fetchFromPageCache, pages_for.
  change (SPAN_PAGES * PAGE_SIZE) with (8 * 4096).
  case_bool_decide; [done|].
  unfold wrap64, PAGE_SIZE. rewrite Z.mod_small by lia.
  do 2 f_equal. lia.
Qed.

Lemma pages_for_large size :
  32768 < size <= 262144 ->
  9 <= pages_for size /\ (pages_for size * PAGE_SIZE) / size = 1 /\
  (SPAN_PAGES * PAGE_SIZE) / size = 0.
Proof.
  intros Hs. unfold pages_for, PAGE_SIZE. change (SPAN_PAGES * 4096) with 32768.
  rewrite bool_decide_eq_false_2 by lia.
  pose proof (Z.div_mod (size + 4095) 4096 ltac:(lia)) as Hdm.
  pose proof (Z.mod_pos_bound (size + 4095) 4096 ltac:(lia)) as Hmb.
  split; [lia|]. split.
  - symmetry. apply (Z.div_unique _ _ _ ((size + 4095) / 4096 * 4096 - size)); lia.
  - apply Z.div_small. lia.
Qed.

(** What the refill path does establish: the page layer is asked for
    [pages_for size] pages and the span it yields is returned; with [T] and
    [A] as the specification defines them, the [T - A] blocks left over form
    the class's central list; the first [A] blocks are shown to form a
    null-terminated list only where the code stores the terminator
    ([A >= 2]) or finds one (the span's first word is zero). *)
Lemma fetchRange_refill_lists os st index batchNum start m1 pc1 :
  let size := (index + 1) * ALIGNMENT in
  let P := pages_for size in
  let T := (P * PAGE_SIZE) / size in
  let A := Z.min batchNum T in
  0 <= index < FREE_LIST_SIZE -> 0 < batchNum ->
  locked st index = false -> head_of st index = 0 ->
  allocateSpan os (mem st) (page st) P = Some (start, m1, pc1) ->
  0 < start -> start + P * PAGE_SIZE <= 2 ^ 64 ->
  exists st',
    fetchRange os st index batchNum = Some (start, st') /\
    page st' = pc1 /\ locked st' index = false /\
    (2 <= A \/ load m1 start = 0 ->
     is_list (mem st') start (block_seq start size 0 (Z.to_nat A))) /\
    is_list (mem st') (head_of st' index) (block_seq start size A (Z.to_nat (T - A))).
Proof.
  intros size P T A Hi Hb Hl Hh Hp Hs Hfit.
  pose proof (class_size_bounds index Hi) as Hsz. fold size in Hsz.
  unfold P in Hp. rewrite <- fetchFromPageCache_pages in Hp by lia.
  rewrite (fetchRange_refill os st index batchNum start m1 pc1) by (done || lia).
  rewrite bool_decide_eq_false_2 by lia. fold size.
  eexists. split; [done|]. split; [done|]. split; [apply locked_released|].
  unfold head_of. simpl.
  assert (Hfit8 : start + SPAN_PAGES * PAGE_SIZE <= 2 ^ 64).
  { change (SPAN_PAGES * PAGE_SIZE) with 32768. unfold P, pages_for, PAGE_SIZE in Hfit.
    case_bool_decide; [lia|].
    destruct (pages_for_large size ltac:(lia)) as (H9 & _).
    unfold pages_for in H9. rewrite bool_decide_eq_false_2 in H9 by done. lia. }
  destruct (carve_span_spec m1 (centralFreeList_ st) start size index batchNum)
    as (H1 & H2 & H3 & H4); [done|done|lia|done|].
  set (r := carve_span _ _ _ _ _ _) in *.
  destruct (Z_le_dec size 32768) as [Hsmall|Hlarge].
  - (* T and A are the code's totalBlocks and allocBlocks *)
    assert (HP : P = SPAN_PAGES) by (unfold P, pages_for; by rewrite bool_decide_eq_true_2).
    assert (HT1 : 1 <= T).
    { unfold T. rewrite HP. change (SPAN_PAGES * PAGE_SIZE) with 32768.
      apply Z.div_le_lower_bound; lia. }
    unfold A, T in *. rewrite HP in *. split.
    + intros Hcase. destruct (Z_lt_dec 1 (batchNum `min` (SPAN_PAGES * PAGE_SIZE / size))) as [Hgt|Hle].
      * by apply H1.
      * assert (HA1 : batchNum `min` (SPAN_PAGES * PAGE_SIZE / size) = 1) by lia.
        rewrite HA1. simpl. split; [lia|]. split; [lia|].
        replace (start + 0 * size) with start by lia.
        rewrite H2 by lia. destruct Hcase; [lia|done].
    + destruct (Z_lt_dec (batchNum `min` (SPAN_PAGES * PAGE_SIZE / size)) (SPAN_PAGES * PAGE_SIZE / size)) as [Hlt|Hge].
      * destruct (H3 Hlt) as [-> Hrem]. by rewrite lookup_insert_eq.
      * rewrite H4 by lia. fold (head_of st index). rewrite Hh.
        replace (Z.to_nat _) with 0%nat by lia. done.
  - destruct (pages_for_large size ltac:(lia)) as (_ & HT & HT0).
    fold P in HT. fold T in HT.
    assert (HA : A = 1) by (unfold A; lia).
    rewrite HT0 in *. rewrite HA, HT. split.
    + intros [|Hz]; [lia|]. simpl. split; [lia|]. split; [lia|].
      replace (start + 0 * size) with start by lia.
      by rewrite H2 by lia.
    + rewrite H4 by lia. fold (head_of st index). by rewrite Hh.
Qed.

(** With at most one block to hand out, the refill path returns the span
    and leaves its first word as the page layer delivered it. *)
Lemma fetchRange_single_block os st index batchNum start m1 pc1 :
  let size := (index + 1) * ALIGNMENT in
  0 <= index < FREE_LIST_SIZE -> 0 < batchNum ->
  locked st index = false -> head_of st index = 0 ->
  fetchFromPageCache os (mem st) (page st) size = Some (start, m1, pc1) ->
  0 < start -> start + SPAN_PAGES * PAGE_SIZE <= 2 ^ 64 ->
  Z.min batchNum ((SPAN_PAGES * PAGE_SIZE) / size) <= 1 ->
  exists st',
    fetchRange os st index batchNum = Some (start, st') /\
    load (mem st') start = load m1 start.
Proof.
  intros size Hi Hb Hl Hh Hp Hs Hfit HA.
  pose proof (class_size_bounds index Hi) as Hsz. fold size in Hsz.
  rewrite (fetchRange_refill os st index batchNum start m1 pc1) by (done || lia).
  rewrite bool_decide_eq_false_2 by lia. fold size.
  eexists. split; [done|]. cbn [mem].
  destruct (carve_span_spec m1 (centralFreeList_ st) start size index batchNum)
    as (_ & H2 & _); [done|done|lia|done|].
  by apply H2.
Qed.

(** A span split off a released 65-page span whose memory holds stale data:
    class 0, one block requested. *)
Lemma allocateSpan_split65 :
  allocateSpan None dirty pc_free65 (pages_for ((0 + 1) * ALIGNMENT))
    = Some (65536, dirty, pc_split65).
Proof. vm_compute. reflexivity. Qed.

Lemma fetchFromPageCache_split65 :
  fetchFromPageCache None (mem st_dirty65) (page st_dirty65) ((0 + 1) * ALIGNMENT)
    = Some (65536, dirty, pc_split65).
Proof. vm_compute. reflexivity. Qed.

(** The refill postcondition of the specification does not hold of the
    code: a single returned block need not be a null-terminated list. *)
Lemma refill_single_block_unterminated : ~ refill_lists_as_specified.
Proof.
  intros H.
  destruct (H None st_dirty65 0 1 65536 dirty pc_split65) as (st' & Hf & Hret & _);
    [by vm_compute | lia | reflexivity | reflexivity
     | exact allocateSpan_split65 | lia | by vm_compute |].
  destruct (fetchRange_single_block None st_dirty65 0 1 65536 dirty pc_split65)
    as (st'' & Hf' & Hload);
    [by vm_compute | lia | reflexivity | reflexivity
     | exact fetchFromPageCache_split65 | lia | by vm_compute | by vm_compute |].
  rewrite Hf in Hf'. injection Hf' as <-.
  change (Z.to_nat _) with 1%nat in Hret.
  destruct Hret as (_ & _ & Hnull).
  change (65536 + 0 * ((0 + 1) * ALIGNMENT)) with 65536 in Hnull.
  rewrite Hload in Hnull. discriminate Hnull.
Qed.

Lemma fetchRange_refill_lists_witness :
  exists st',
    fetchRange None st_dirty65 2047 3 = Some (65536, st') /\
    locked st' 2047 = false /\
    is_list (mem st') 65536 (block_seq 65536 16384 0 2).
Proof.
  destruct (fetchRange_refill_lists None st_dirty65 2047 3 65536 dirty pc_split65)
    as (st' & Hf & _ & Hl & Hret & _);
    [by vm_compute | lia | reflexivity | reflexivity
     | exact allocateSpan_split65 | lia | by vm_compute |].
  exists st'. split; [exact Hf|]. split; [exact Hl|].
  apply Hret. left. by vm_compute.
Defined.

(** The same span, requested for class 4095 (blocks of 32768 bytes). *)
Lemma fetchFromPageCache_split65_class4095 :
  fetchFromPageCache None (mem st_dirty65) (page st_dirty65) ((4095 + 1) * ALIGNMENT)
    = Some (65536, dirty, pc_split65).
Proof. vm_compute. reflexivity. Qed.

(** C3, the code at a failing input: class 4095 (blocks of 32768 bytes,
    one block per span), a batch of two, an empty central list, and a page
    cache that serves the request from a released span whose memory holds
    stale data.  [fetchRange] returns the span, and the first word of the one
    block handed out still holds the stale value 57005: the block is not a
    null-terminated list of one block. *)
Theorem fetchRange_single_block_stale :
  exists st',
    fetchRange None st_dirty65 4095 2 = Some (65536, st') /\
    load (mem st') 65536 = 57005 /\
    ~ is_list (mem st') 65536 [65536].
Proof.
  destruct (fetchRange_single_block None st_dirty65 4095 2 65536 dirty pc_split65)
    as (st' & Hf & Hload);
    [by vm_compute | lia | reflexivity | reflexivity
     | exact fetchFromPageCache_split65_class4095 | lia | by vm_compute | by vm_compute |].
  change (load dirty 65536) with 57005 in Hload.
  exists st'. split; [exact Hf|]. split; [exact Hload|].
  intros (_ & _ & Hnull). cbn [is_list] in Hnull.
  rewrite Hload in Hnull. discriminate Hnull.
Qed.

(** C9: on the refill path the terminating null of the returned list is
    stored only when [allocBlocks > 1]; with [allocBlocks <= 1] the first
    word of the returned block keeps the value the span memory held, so the
    returned block is a null-terminated list exactly when that word was
    already zero. *)
Theorem fetchRange_first_word os st index batchNum start m1 pc1 :
  let size := (index + 1) * ALIGNMENT in
  let totalBlocks := (SPAN_PAGES * PAGE_SIZE) / size in
  let allocBlocks := Z.min batchNum totalBlocks in
  0 <= index < FREE_LIST_SIZE -> 0 < batchNum ->
  locked st index = false -> head_of st index = 0 ->
  fetchFromPageCache os (mem st) (page st) size = Some (start, m1, pc1) ->
  0 < start -> start + SPAN_PAGES * PAGE_SIZE <= 2 ^ 64 ->
  exists st',
    fetchRange os st index batchNum = Some (start, st') /\
    (1 < allocBlocks -> load (mem st') (start + (allocBlocks - 1) * size) = 0) /\
    (allocBlocks <= 1 ->
     load (mem st') start = load m1 start /\
     (is_list (mem st') start [start] <-> load m1 start = 0)).
Proof.
  intros size totalBlocks allocBlocks Hi Hb Hl Hh Hp Hs Hfit.
  pose proof (class_size_bounds index Hi) as Hsz. fold size in Hsz.
  rewrite (fetchRange_refill os st index batchNum start m1 pc1) by (done || lia).
  rewrite bool_decide_eq_false_2 by lia. fold size.
  eexists. split; [done|]. cbn [mem].
  destruct (carve_span_spec m1 (centralFreeList_ st) start size index batchNum)
    as (H1 & H2 & _); [done|done|lia|done|].
  split.
  - intros HA. by apply H1.
  - intros HA. rewrite H2 by done. split; [done|].
    cbn [is_list]. rewrite H2 by done. split; [tauto|]. intros Hz.
    split; [done|]. split; [lia|done].
Qed.

Lemma fetchRange_first_word_witness :
  exists st',
    fetchRange None st_dirty65 0 1 = Some (65536, st') /\
    (1 < 1 -> load (mem st') (65536 + (1 - 1) * 8) = 0) /\
    (1 <= 1 ->
     load (mem st') 65536 = load dirty 65536 /\
     (is_list (mem st') 65536 [65536] <-> load dirty 65536 = 0)).
Proof.
  apply (fetchRange_first_word None st_dirty65 0 1 65536 dirty pc_split65);
    [by vm_compute | lia | reflexivity | reflexivity
     | exact fetchFromPageCache_split65 | lia | by vm_compute].
Defined.

(** The page layer's own failure: no free span is large enough and the OS
    refuses. *)
Lemma allocateSpan_os_failure m pc n :
  lower_bound (freeSpans_ pc) n = None ->
  allocateSpan None m pc n = Some (0, m, pc).
Proof. intros H. unfold allocateSpan. by rewrite H. Qed.

(** What [fetchRange] does with a null span or a carving of zero blocks. *)
Lemma fetchRange_nothing_carved os st index batchNum r m1 pc1 :
  let size := (index + 1) * ALIGNMENT in
  0 <= index < FREE_LIST_SIZE -> 0 < batchNum ->
  locked st index = false -> head_of st index = 0 ->
  fetchFromPageCache os (mem st) (page st) size = Some (r, m1, pc1) ->
  r = 0 \/ (SPAN_PAGES * PAGE_SIZE) / size = 0 ->
  exists st',
    fetchRange os st index batchNum = Some (r, st') /\
    locked st' index = false /\
    centralFreeList_ st' = centralFreeList_ st.
Proof.
  intros size Hi Hb Hl Hh Hp Hcase.
  rewrite (fetchRange_refill os st index batchNum r m1 pc1) by (done || lia).
  case_bool_decide as Hr.
  - subst r. eexists. split; [done|]. split; [apply locked_released|done].
  - destruct Hcase as [?|HT]; [done|]. fold size.
    eexists. split; [done|]. split; [apply locked_released|]. cbn [centralFreeList_].
    unfold carve_span. rewrite HT.
    rewrite (bool_decide_eq_false_2 (_ < 0)) by lia. by case_bool_decide.
Qed.

(** C7 (amended): when the page layer hands back [r] and either [r] is null
    or the carving computes zero blocks, [fetchRange] returns [r], releases
    the class lock and leaves the class's central list untouched.  So it
    returns null when the allocation failed, and the span's base address
    when the carving computed zero blocks. *)
Theorem fetchRange_failure os st index batchNum r m1 pc1 :
  let size := (index + 1) * ALIGNMENT in
  0 <= index < FREE_LIST_SIZE -> 0 < batchNum ->
  locked st index = false -> head_of st index = 0 ->
  fetchFromPageCache os (mem st) (page st) size = Some (r, m1, pc1) ->
  r = 0 \/ (SPAN_PAGES * PAGE_SIZE) / size = 0 ->
  exists st',
    fetchRange os st index batchNum = Some (r, st') /\
    locked st' index = false /\
    centralFreeList_ st' = centralFreeList_ st.
Proof. exact (fetchRange_nothing_carved os st index batchNum r m1 pc1). Qed.

Lemma fetchRange_failure_witness :
  exists st',
    fetchRange None (CentralCache.init zeroed) 0 4 = Some (0, st') /\
    locked st' 0 = false /\
    centralFreeList_ st' = centralFreeList_ (CentralCache.init zeroed).
Proof.
  apply (fetchRange_failure None (CentralCache.init zeroed) 0 4 0 zeroed PageCache.empty);
    [by vm_compute | lia | reflexivity | reflexivity | reflexivity | by left].
Defined.

Lemma fetchFromPageCache_large :
  fetchFromPageCache None (mem st_dirty65) (page st_dirty65) ((4096 + 1) * ALIGNMENT)
    = Some (65536, dirty, pc_split65_large).
Proof. vm_compute. reflexivity. Qed.

(** C7, counterexample: class 4096 (32776-byte blocks), served by a 9-page
    span.  The carving computes zero blocks, and the span's address comes
    back. *)
Lemma fetch_zero_blocks_not_null : ~ fetch_failure_as_specified.
Proof.
  intros H.
  destruct (H None st_dirty65 4096 1 _ _ _
              ltac:(by vm_compute) ltac:(lia) eq_refl eq_refl
              fetchFromPageCache_large ltac:(by right))
    as (st' & Hf & _).
  destruct (fetchRange_nothing_carved None st_dirty65 4096 1 _ _ _
              ltac:(by vm_compute) ltac:(lia) eq_refl eq_refl
              fetchFromPageCache_large ltac:(by right))
    as (st'' & Hf' & _).
  rewrite Hf in Hf'. discriminate Hf'.
Qed.

(** ** Central cache: returning a list *)

Lemma is_list_functional m : forall l1 l2 p,
  is_list m p l1 -> is_list m p l2 -> l1 = l2.
Proof.
  induction l1 as [|a l1 IH]; intros [|b l2] p H1 H2; simpl in *.
  - done.
  - destruct H2 as (H2 & Hnz & _). congruence.
  - destruct H1 as (H1 & Hnz & _). congruence.
  - destruct H1 as (-> & _ & H1), H2 as (<- & _ & H2). f_equal. eauto.
Qed.

Lemma is_list_suffix m l1 a l2 : forall p,
  is_list m p (l1 ++ a :: l2) -> is_list m a (a :: l2).
Proof.
  induction l1 as [|b l1 IH]; intros p H; simpl in *.
  - destruct H as (_ & Hnz & H). done.
  - destruct H as (_ & _ & H). eauto.
Qed.

Lemma is_list_NoDup m l : forall p, is_list m p l -> NoDup l.
Proof.
  induction l as [|a l IH]; intros p H; [constructor|].
  pose proof H as Hall. destruct H as (-> & Hnz & H).
  constructor; [|eauto].
  intros Hin. apply list_elem_of_split in Hin as (l1 & l2 & ->).
  pose proof (is_list_suffix m (a :: l1) a l2 _ Hall) as Hsuf.
  pose proof (is_list_functional m _ _ _ Hall Hsuf) as Heq.
  apply (f_equal length) in Heq. simpl in Heq. rewrite length_app in Heq.
  simpl in Heq. lia.
Qed.

(** The tail search reaches the last block of a list of at most [size]
    blocks. *)
Lemma find_tail_last m size t : forall l p c fuel,
  is_list m p (l ++ [t]) ->
  c + Z.of_nat (length l) <= size -> (length l <= fuel)%nat ->
  find_tail fuel m p c size = t.
Proof.
  induction l as [|a l IH]; intros p c fuel H Hc Hfuel.
  - destruct H as (-> & _ & Hend). simpl in Hend.
    destruct fuel; [done|]. simpl.
    rewrite bool_decide_eq_false_2 by (intros Hx; by apply Hx). done.
  - destruct H as (-> & _ & H).
    destruct fuel as [|fuel]; [simpl in Hfuel; lia|]. simpl in Hc, Hfuel.
    cbn [find_tail].
    assert (Hnz : load m a <> 0).
    { destruct l; simpl in H; destruct H as (-> & Hnz & _); done. }
    rewrite bool_decide_eq_true_2 by done.
    rewrite bool_decide_eq_true_2 by lia. cbn [andb].
    apply IH; [done | lia | lia].
Qed.

Lemma is_list_splice m t h l0 : forall l p,
  is_list m p (l ++ [t]) -> t ∉ l ->
  is_list m h l0 -> t ∉ l0 ->
  is_list (store m t h) p (l ++ t :: l0).
Proof.
  induction l as [|a l IH]; intros p H Ht Hl0 Ht0.
  - destruct H as (-> & Hnz & _). simpl. split; [done|]. split; [done|].
    rewrite load_store_eq.
    eapply is_list_ext; [|exact Hl0].
    intros a Ha. apply load_store_ne. by intros ->.
  - destruct H as (-> & Hnz & H). apply not_elem_of_cons in Ht as [Hne Ht].
    simpl. split; [done|]. split; [done|].
    rewrite load_store_ne by done. by apply IH.
Qed.

(** When the incoming list has at most [size] blocks, [returnRange] splices
    the whole of it in front of the class's central list. *)
Lemma returnRange_splice st start size index l l0 :
  0 <= index < FREE_LIST_SIZE -> locked st index = false ->
  l <> [] -> is_list (mem st) start l -> Z.of_nat (length l) <= size ->
  is_list (mem st) (head_of st index) l0 ->
  (forall a, a ∈ l -> a ∉ l0) ->
  exists st',
    returnRange st start size index = Some st' /\
    locked st' index = false /\
    head_of st' index = start /\
    is_list (mem st') start (l ++ l0).
Proof.
  intros Hi Hl Hne Hlist Hlen Hl0 Hdisj.
  destruct (exists_last Hne) as (l1 & t & ->).
  pose proof (is_list_NoDup _ _ _ Hlist) as Hnd.
  apply NoDup_app in Hnd as (_ & Hnd & _).
  assert (Hstart : start <> 0).
  { destruct l1; simpl in Hlist; destruct Hlist as (-> & Hnz & _); done. }
  unfold returnRange.
  rewrite (bool_decide_eq_false_2 (start = 0)) by done.
  rewrite bool_decide_eq_false_2 by lia. cbn [orb]. rewrite Hl.
  rewrite length_app in Hlen. simpl in Hlen.
  rewrite (find_tail_last (mem st) size t l1) by (done || lia).
  eexists. split; [done|]. unfold locked, head_of. cbn [locks_ centralFreeList_ mem].
  rewrite !lookup_insert_eq. split; [done|]. split; [done|].
  rewrite <- app_assoc. apply is_list_splice; try done.
  - intros Hin. apply (Hnd t Hin). apply elem_of_cons. by left.
  - apply Hdisj. apply elem_of_app. right. apply elem_of_cons. by left.
Qed.

(** C2, the code at a failing input: nine class-0 blocks are returned with
    [size = 8].  The tail search stops at the eighth block, whose link is
    overwritten; the central list then holds eight blocks and the ninth, at
    65600, is on no list. *)
Theorem returnRange_truncates :
  is_list (mem st_chain9) 65536 (block_seq 65536 8 0 9) /\
  exists st',
    returnRange st_chain9 65536 8 0 = Some st' /\
    is_list (mem st') (head_of st' 0) (block_seq 65536 8 0 8) /\
    65600 ∉ block_seq 65536 8 0 8.
Proof.
  split.
  - vm_compute. repeat split; (reflexivity || discriminate).
  - eexists. split; [reflexivity|]. split.
    + vm_compute. repeat split; (reflexivity || discriminate).
    + intros Hin. apply (elem_of_block_seq 65536 8) in Hin as (j & Hj & Heq). lia.
Qed.

(** * Further properties of the modelled code *)

(** ** Size classes: further properties *)

Lemma roundUp_eq s :
  0 <= s <= 2 ^ 64 - 8 -> SizeClass.roundUp s = 8 * ((s + 7) / 8).
Proof.
  intros Hs. unfold SizeClass.roundUp, ALIGNMENT, wrap64.
  change (Z.lnot (8 - 1) mod 2 ^ 64) with (2 ^ 64 - 8).
  assert (H64 : 2 ^ 64 = 18446744073709551616) by reflexivity.
  rewrite Z.mod_small by lia. rewrite land_mask8 by lia.
  do 2 f_equal. lia.
Qed.

Lemma getIndex_eq s :
  0 <= s <= 2 ^ 64 - 8 -> SizeClass.getIndex s = (Z.max s 8 + 7) / 8 - 1.
Proof.
  intros Hs. unfold SizeClass.getIndex, ALIGNMENT, wrap64.
  assert (H64 : 2 ^ 64 = 18446744073709551616) by reflexivity.
  rewrite (Z.mod_small (Z.max s 8 + 8 - 1)) by lia.
  replace (Z.max s 8 + 8 - 1) with (Z.max s 8 + 7) by lia.
  pose proof (Z.div_mod (Z.max s 8 + 7) 8 ltac:(lia)).
  pose proof (Z.mod_pos_bound (Z.max s 8 + 7) 8 ltac:(lia)).
  apply Z.mod_small. lia.
Qed.

(** X1: [roundUp] gives the least multiple of 8 that is at least [s], and
    rounding twice changes nothing, for every request that does not overflow
    the addition. *)
Theorem roundUp_least_multiple s :
  0 <= s <= 2 ^ 64 - 8 ->
  SizeClass.roundUp s mod ALIGNMENT = 0 /\
  s <= SizeClass.roundUp s < s + ALIGNMENT /\
  SizeClass.roundUp (SizeClass.roundUp s) = SizeClass.roundUp s.
Proof.
  intros Hs. rewrite (roundUp_eq s) by done. unfold ALIGNMENT.
  assert (H64 : 2 ^ 64 = 18446744073709551616) by reflexivity.
  pose proof (Z.div_mod (s + 7) 8 ltac:(lia)) as Hdm.
  pose proof (Z.mod_pos_bound (s + 7) 8 ltac:(lia)) as Hmb.
  split; [|split].
  - rewrite Z.mul_comm. apply Z.mod_mul. lia.
  - lia.
  - rewrite roundUp_eq by lia. f_equal.
    symmetry. apply (Z.div_unique _ _ _ 7); lia.
Qed.

Lemma roundUp_least_multiple_witness :
  SizeClass.roundUp 13 mod ALIGNMENT = 0 /\
  13 <= SizeClass.roundUp 13 < 13 + ALIGNMENT /\
  SizeClass.roundUp (SizeClass.roundUp 13) = SizeClass.roundUp 13.
Proof. apply (roundUp_least_multiple 13). by vm_compute. Defined.

(** X2: for the last seven values of [size_t] the addition in [roundUp]
    wraps around and the result is 0, less than the request. *)
Theorem roundUp_wraps s :
  2 ^ 64 - 8 < s < 2 ^ 64 -> SizeClass.roundUp s = 0.
Proof.
  intros Hs. unfold SizeClass.roundUp, ALIGNMENT, wrap64.
  change (Z.lnot (8 - 1) mod 2 ^ 64) with (2 ^ 64 - 8).
  assert (H64 : 2 ^ 64 = 18446744073709551616) by reflexivity.
  replace (s + 8 - 1) with (s + 7 - 2 ^ 64 + 1 * 2 ^ 64) by lia.
  rewrite Z.mod_add by lia. rewrite Z.mod_small by lia.
  rewrite land_mask8 by lia.
  rewrite Z.div_small by lia. done.
Qed.

Lemma roundUp_wraps_witness : SizeClass.roundUp (2 ^ 64 - 3) = 0.
Proof. apply (roundUp_wraps (2 ^ 64 - 3)). by vm_compute. Defined.

(** X3: every request up to [MAX_BYTES] gets a class index inside the
    free-list arrays, requests of at most 8 bytes (0 included) get class 0,
    and the index does not decrease when the request grows. *)
Theorem getIndex_in_range s t :
  0 <= s <= t -> t <= MAX_BYTES ->
  0 <= SizeClass.getIndex s < FREE_LIST_SIZE /\
  (s <= ALIGNMENT -> SizeClass.getIndex s = 0) /\
  SizeClass.getIndex s <= SizeClass.getIndex t.
Proof.
  unfold MAX_BYTES, ALIGNMENT. change FREE_LIST_SIZE with 32768. intros Hs Ht.
  assert (H64 : 2 ^ 64 = 18446744073709551616) by reflexivity.
  rewrite !getIndex_eq by lia.
  pose proof (Z.div_mod (Z.max s 8 + 7) 8 ltac:(lia)).
  pose proof (Z.mod_pos_bound (Z.max s 8 + 7) 8 ltac:(lia)).
  pose proof (Z.div_le_mono (Z.max s 8 + 7) (Z.max t 8 + 7) 8 ltac:(lia) ltac:(lia)).
  split; [lia|]. split; [|lia].
  intros Hle. rewrite Z.max_r by lia. done.
Qed.

Lemma getIndex_in_range_witness :
  0 <= SizeClass.getIndex 0 < FREE_LIST_SIZE /\
  (0 <= ALIGNMENT -> SizeClass.getIndex 0 = 0) /\
  SizeClass.getIndex 0 <= SizeClass.getIndex MAX_BYTES.
Proof. apply (getIndex_in_range 0 MAX_BYTES); by vm_compute. Defined.

(** X4: the class size of class [i] is its own rounded size and maps back to
    class [i]. *)
Theorem getIndex_of_class_size i :
  0 <= i < FREE_LIST_SIZE ->
  SizeClass.getIndex ((i + 1) * ALIGNMENT) = i /\
  SizeClass.roundUp ((i + 1) * ALIGNMENT) = (i + 1) * ALIGNMENT.
Proof.
  unfold ALIGNMENT. change FREE_LIST_SIZE with 32768. intros Hi.
  assert (H64 : 2 ^ 64 = 18446744073709551616) by reflexivity.
  rewrite getIndex_eq, roundUp_eq by lia.
  rewrite Z.max_l by lia.
  assert (Hq : ((i + 1) * 8 + 7) / 8 = i + 1)
    by (symmetry; apply (Z.div_unique _ _ _ 7); lia).
  rewrite Hq. lia.
Qed.

Lemma getIndex_of_class_size_witness :
  SizeClass.getIndex ((5 + 1) * ALIGNMENT) = 5 /\
  SizeClass.roundUp ((5 + 1) * ALIGNMENT) = (5 + 1) * ALIGNMENT.
Proof. apply (getIndex_of_class_size 5). by vm_compute. Defined.

(** X5: a request above [MAX_BYTES] maps to an index outside the arrays,
    which [fetchRange] answers with [nullptr] and [returnRange] ignores,
    leaving the state as it was. *)
Theorem oversize_request_rejected os st s batchNum start size :
  MAX_BYTES < s <= 2 ^ 64 - 8 ->
  FREE_LIST_SIZE <= SizeClass.getIndex s /\
  fetchRange os st (SizeClass.getIndex s) batchNum = Some (0, st) /\
  returnRange st start size (SizeClass.getIndex s) = Some st.
Proof.
  unfold MAX_BYTES. intros Hs.
  assert (Hidx : FREE_LIST_SIZE <= SizeClass.getIndex s).
  { change FREE_LIST_SIZE with 32768. rewrite getIndex_eq by lia.
    rewrite Z.max_l by lia.
    pose proof (Z.div_mod (s + 7) 8 ltac:(lia)).
    pose proof (Z.mod_pos_bound (s + 7) 8 ltac:(lia)). lia. }
  split; [done|]. unfold fetchRange, returnRange.
  rewrite (bool_decide_eq_true_2 (FREE_LIST_SIZE <= _)) by done.
  by rewrite orb_true_r.
Qed.

Lemma oversize_request_rejected_witness :
  FREE_LIST_SIZE <= SizeClass.getIndex 262145 /\
  fetchRange None st_dirty65 (SizeClass.getIndex 262145) 4 = Some (0, st_dirty65) /\
  returnRange st_dirty65 65536 8 (SizeClass.getIndex 262145) = Some st_dirty65.
Proof. apply (oversize_request_rejected None st_dirty65 262145 4 65536 8). by vm_compute. Defined.

(** ** Page cache: further properties *)

Lemma lower_bound_exact {V} (m : gmap Z V) n v :
  m !! n = Some v -> lower_bound m n = Some (n, v).
Proof.
  intros Hn. destruct (lower_bound m n) as [[k v']|] eqn:Hlb.
  - destruct (lower_bound_Some m n k v' Hlb) as (Hk & Hle & Hmin).
    assert (k = n) as -> by (specialize (Hmin n v Hn); lia).
    congruence.
  - pose proof (lower_bound_None m n Hlb n v Hn). lia.
Qed.

Lemma lower_bound_all_below {V} (m : gmap Z V) n :
  (forall k v, m !! k = Some v -> k < n) -> lower_bound m n = None.
Proof.
  intros Hall. destruct (lower_bound m n) as [[k v]|] eqn:Hlb; [|done].
  destruct (lower_bound_Some m n k v Hlb) as (Hk & Hle & _).
  specialize (Hall k v Hk). lia.
Qed.

(** X12: when no free-span bucket is large enough, [allocateSpan] turns to
    the OS.  A region at [p] becomes a registered span of [n] pages whose
    memory is zero-filled, other memory and the free lists being untouched;
    an OS refusal gives [nullptr] and changes nothing. *)
Theorem allocateSpan_from_os m pc n p :
  (forall k v, freeSpans_ pc !! k = Some v -> k < n) ->
  0 <= n -> n * PAGE_SIZE < 2 ^ 64 -> p <> 0 ->
  allocateSpan None m pc n = Some (0, m, pc) /\
  exists m' pc' S,
    allocateSpan (Some p) m pc n = Some (p, m', pc') /\
    (forall a, p <= a < p + n * PAGE_SIZE -> load m' a = 0) /\
    (forall a, ~ (p <= a < p + n * PAGE_SIZE) -> load m' a = load m a) /\
    spans pc !! S = None /\
    spans pc' !! S = Some (mkSpan p n None) /\
    spanMap_ pc' !! p = Some S /\
    freeSpans_ pc' = freeSpans_ pc.
Proof.
  intros Hall Hn Hfit Hp.
  pose proof (lower_bound_all_below _ _ Hall) as Hlb.
  unfold allocateSpan. rewrite Hlb. cbn [systemAlloc].
  rewrite (bool_decide_eq_true_2 (0 = 0)) by done. split; [done|].
  rewrite (bool_decide_eq_false_2 (p = 0)) by done.
  eexists _, _, _. split; [done|]. cbn [spans spanMap_ freeSpans_].
  unfold wrap64. rewrite Z.mod_small by (unfold PAGE_SIZE in *; lia).
  split; [|split; [|split; [|split; [|split]]]].
  - intros a Ha. unfold load, memset0. by rewrite bool_decide_eq_true_2.
  - intros a Ha. unfold load, memset0. by rewrite bool_decide_eq_false_2.
  - apply fresh_span_not_live.
  - by rewrite lookup_insert_eq.
  - by rewrite lookup_insert_eq.
  - done.
Qed.

Lemma allocateSpan_from_os_witness :
  allocateSpan None dirty PageCache.empty 2 = Some (0, dirty, PageCache.empty) /\
  exists m' pc' S,
    allocateSpan (Some 65536) dirty PageCache.empty 2 = Some (65536, m', pc') /\
    (forall a, 65536 <= a < 65536 + 2 * PAGE_SIZE -> load m' a = 0) /\
    (forall a, ~ (65536 <= a < 65536 + 2 * PAGE_SIZE) -> load m' a = load dirty a) /\
    spans PageCache.empty !! S = None /\
    spans pc' !! S = Some (mkSpan 65536 2 None) /\
    spanMap_ pc' !! 65536 = Some S /\
    freeSpans_ pc' = freeSpans_ PageCache.empty.
Proof.
  apply (allocateSpan_from_os dirty PageCache.empty 2 65536);
    [intros k v Hk; unfold PageCache.empty in Hk; cbn [freeSpans_] in Hk;
     by rewrite lookup_empty in Hk
    | lia | by vm_compute | lia].
Defined.

(** X13: when some free-span bucket is large enough, [allocateSpan] serves
    the span at the head of the least such bucket: the OS is not consulted
    and memory is not written. *)
Theorem allocateSpan_best_fit os m pc n k0 v0 a m' pc' :
  freeSpans_ pc !! k0 = Some v0 -> n <= k0 ->
  allocateSpan os m pc n = Some (a, m', pc') ->
  exists k S s,
    freeSpans_ pc !! k = Some (Some S) /\ n <= k /\
    (forall k' v', freeSpans_ pc !! k' = Some v' -> n <= k' -> k <= k') /\
    spans pc !! S = Some s /\ a = pageAddr s /\ m' = m /\
    spanMap_ pc' !! a = Some S.
Proof.
  intros Hk0 Hle. unfold allocateSpan.
  destruct (lower_bound (freeSpans_ pc) n) as [[k head]|] eqn:Hlb.
  2:{ pose proof (lower_bound_None _ _ Hlb k0 v0 Hk0). lia. }
  destruct (lower_bound_Some _ _ _ _ Hlb) as (Hk & Hnk & Hmin).
  destruct head as [S|]; [|done]. cbn [mbind option_bind].
  destruct (spans pc !! S) as [s|] eqn:HS; [|done]. cbn [mbind option_bind].
  case_bool_decide as Hsplit.
  - rewrite lookup_insert_eq. cbn [mbind option_bind pageAddr set_numPages].
    intros [= <- <- <-]. exists k, S, s. cbn [spanMap_].
    rewrite lookup_insert_eq. done.
  - rewrite HS. cbn [mbind option_bind].
    intros [= <- <- <-]. exists k, S, s. cbn [spanMap_].
    rewrite lookup_insert_eq. done.
Qed.

Lemma allocateSpan_best_fit_witness :
  exists k S s,
    freeSpans_ pc_free65 !! k = Some (Some S) /\ 8 <= k /\
    (forall k' v', freeSpans_ pc_free65 !! k' = Some v' -> 8 <= k' -> k <= k') /\
    spans pc_free65 !! S = Some s /\ 65536 = pageAddr s /\ dirty = dirty /\
    spanMap_ pc_split65 !! 65536 = Some S.
Proof.
  apply (allocateSpan_best_fit (Some 4096) dirty pc_free65 8 65 (Some 1%positive)
           65536 dirty pc_split65);
    [reflexivity | lia | vm_compute; reflexivity].
Defined.

(** X14: when the heads of the free-span lists have the page counts of their
    buckets, a non-null address returned by [allocateSpan] is registered to
    a live span that starts there and has exactly the requested number of
    pages. *)
Theorem allocateSpan_registers os m pc n a m' pc' :
  heads_sized pc ->
  allocateSpan os m pc n = Some (a, m', pc') -> a <> 0 ->
  exists S s,
    spanMap_ pc' !! a = Some S /\ spans pc' !! S = Some s /\
    pageAddr s = a /\ numPages s = n.
Proof.
  intros Hwf. unfold allocateSpan.
  destruct (lower_bound (freeSpans_ pc) n) as [[k head]|] eqn:Hlb.
  - destruct (lower_bound_Some _ _ _ _ Hlb) as (Hk & Hnk & _).
    destruct head as [S|]; [|done]. cbn [mbind option_bind].
    destruct (spans pc !! S) as [s|] eqn:HS; [|done]. cbn [mbind option_bind].
    pose proof (Hwf k S s Hk HS) as Hpages.
    case_bool_decide as Hsplit.
    + rewrite lookup_insert_eq. cbn [mbind option_bind pageAddr set_numPages].
      intros [= <- <- <-] _. eexists S, _. cbn [spanMap_ spans].
      rewrite !lookup_insert_eq. done.
    + rewrite HS. cbn [mbind option_bind].
      intros [= <- <- <-] _. exists S, s. cbn [spanMap_ spans].
      rewrite lookup_insert_eq. split; [done|]. split; [done|]. split; [done|]. lia.
  - destruct os as [p|]; cbn [systemAlloc].
    + case_bool_decide as Hp; intros [= <- <- <-] Hnz; [done|].
      eexists _, _. cbn [spanMap_ spans]. rewrite !lookup_insert_eq. done.
    + rewrite (bool_decide_eq_true_2 (0 = 0)) by done. intros [= <- <- <-]. done.
Qed.

Lemma pc_free65_heads_sized : heads_sized pc_free65.
Proof.
  intros k S s Hk HS. unfold pc_free65 in *. cbn [freeSpans_ spans] in *.
  apply lookup_singleton_Some in Hk as [<- [= <-]].
  apply lookup_singleton_Some in HS as [_ <-]. done.
Qed.

Lemma allocateSpan_registers_witness :
  exists S s,
    spanMap_ pc_split65 !! 65536 = Some S /\ spans pc_split65 !! S = Some s /\
    pageAddr s = 65536 /\ numPages s = 8.
Proof.
  apply (allocateSpan_registers None dirty pc_free65 8 65536 dirty pc_split65);
    [exact pc_free65_heads_sized | vm_compute; reflexivity | lia].
Defined.

(** The list search changes [next] fields only. *)
Lemma unlinkAfter_addrs nextSpan : forall fuel h prev h' b,
  unlinkAfter fuel h prev nextSpan = Some (h', b) ->
  forall x, pageAddr <$> h' !! x = pageAddr <$> h !! x.
Proof.
  induction fuel as [|fuel IH]; intros h prev h' b H x; [done|].
  cbn [unlinkAfter] in H.
  destruct (h !! prev) as [sp|] eqn:Hp; [|done]. cbn [mbind option_bind] in H.
  destruct (next sp) as [q|]; [|by injection H as <- <-].
  destruct (decide (q = nextSpan)) as [->|Hq]; [|by eapply IH].
  destruct (h !! nextSpan) as [ns|]; [|done]. cbn [mbind option_bind] in H.
  injection H as <- <-.
  destruct (decide (x = prev)) as [->|Hx].
  - by rewrite lookup_insert_eq, Hp.
  - by rewrite lookup_insert_ne.
Qed.

Lemma registry_ok_same_addrs pc h fs :
  registry_ok pc ->
  (forall x, pageAddr <$> h !! x = pageAddr <$> spans pc !! x) ->
  registry_ok (PageCache.mkState h fs (spanMap_ pc)).
Proof.
  intros Hok Hsame a S Ha. cbn [spanMap_ spans] in *.
  destruct (Hok a S Ha) as (s & HS & Haddr).
  specialize (Hsame S). rewrite HS in Hsame. cbn in Hsame.
  destruct (h !! S) as [s1|]; [|done]. injection Hsame as Hs1.
  exists s1. split; [done | congruence].
Qed.

Lemma coalesce_registry_ok fuel pc S nextAddr S' pc1 :
  registry_ok pc -> spanMap_ pc !! nextAddr = Some S' ->
  coalesce fuel pc S nextAddr S' = Some pc1 ->
  registry_ok pc1.
Proof.
  intros Hok Hreg. unfold coalesce.
  destruct (spans pc !! S') as [ns|] eqn:HS'; [|done]. cbn [mbind option_bind].
  set (key := numPages ns).
  set (nextList := default None (freeSpans_ pc !! key)).
  assert (Hcases : forall h1 fs1 (found : bool),
            (forall x, pageAddr <$> h1 !! x = pageAddr <$> spans pc !! x) ->
            (if found then
               s ← h1 !! S; ns1 ← h1 !! S';
               Some (PageCache.mkState
                       (delete S' (<[S := set_numPages s (wrap64 (numPages s + numPages ns1))]> h1))
                       fs1 (delete nextAddr (spanMap_ pc)))
             else Some (PageCache.mkState h1 fs1 (spanMap_ pc))) = Some pc1 ->
            registry_ok pc1).
  { intros h1 fs1 [|] Hsame H.
    - destruct (h1 !! S) as [s|] eqn:HS; [|done]. cbn [mbind option_bind] in H.
      destruct (h1 !! S') as [ns1|]; [|done]. cbn [mbind option_bind] in H.
      injection H as <-. intros a X Ha. cbn [spanMap_ spans] in *.
      apply lookup_delete_Some in Ha as [Hne Ha].
      destruct (Hok a X Ha) as (sx & HX & Haddr).
      destruct (Hok nextAddr S' Hreg) as (sn & HSn & Hnaddr).
      assert (X <> S') by congruence.
      rewrite lookup_delete_ne by done.
      pose proof (Hsame X) as HsX. rewrite HX in HsX. cbn in HsX.
      destruct (decide (X = S)) as [->|HXS].
      + rewrite lookup_insert_eq. eexists. split; [done|]. cbn [pageAddr set_numPages].
        rewrite HS in HsX. cbn in HsX. injection HsX as HsX. congruence.
      + rewrite lookup_insert_ne by done.
        destruct (h1 !! X) as [s1|]; [|done]. injection HsX as HsX.
        exists s1. split; [done | congruence].
    - injection H as <-. by apply registry_ok_same_addrs. }
  destruct (decide (nextList = Some S')).
  - cbn [mbind option_bind]. intros H.
    eapply (Hcases (spans pc) _ true); [done | exact H].
  - destruct nextList as [prev|].
    + destruct (unlinkAfter fuel (spans pc) prev S') as [[h' b]|] eqn:Hw; [|done].
      cbn [mbind option_bind fst snd]. intros H.
      eapply (Hcases h' _ b); [by eapply unlinkAfter_addrs | exact H].
    + cbn [mbind option_bind]. intros H.
      eapply (Hcases (spans pc) _ false); [done | exact H].
Qed.

Lemma deallocateSpan_registry_ok fuel pc ptr n pc' :
  registry_ok pc -> deallocateSpan fuel pc ptr n = Some pc' -> registry_ok pc'.
Proof.
  intros Hok. unfold deallocateSpan.
  destruct (spanMap_ pc !! ptr) as [S|] eqn:Hp; [|by intros [= <-]].
  set (nextAddr := ptr_add ptr (wrap64 (n * PAGE_SIZE))).
  assert (Hmid : exists pc1,
            match spanMap_ pc !! nextAddr with
            | Some nextSpan => coalesce fuel pc S nextAddr nextSpan
            | None => Some pc
            end = Some pc1 /\ registry_ok pc1 \/
            match spanMap_ pc !! nextAddr with
            | Some nextSpan => coalesce fuel pc S nextAddr nextSpan
            | None => Some pc
            end = None).
  { destruct (spanMap_ pc !! nextAddr) as [S'|] eqn:Hn.
    - destruct (coalesce fuel pc S nextAddr S') as [pc1|] eqn:Hco.
      + exists pc1. left. split; [done|]. by eapply coalesce_registry_ok.
      + exists pc. by right.
    - exists pc. left. done. }
  destruct Hmid as (pc1 & [[-> Hok1]| ->]); [|done].
  cbn [mbind option_bind].
  destruct (spans pc1 !! S) as [s|] eqn:HS; [|done]. cbn [mbind option_bind].
  intros [= <-]. apply registry_ok_same_addrs; [done|].
  intros x. destruct (decide (x = S)) as [->|Hx].
  - by rewrite lookup_insert_eq, HS.
  - by rewrite lookup_insert_ne.
Qed.

Lemma allocateSpan_registry_ok os m pc n a m' pc' :
  registry_ok pc -> allocateSpan os m pc n = Some (a, m', pc') -> registry_ok pc'.
Proof.
  intros Hok. unfold allocateSpan.
  destruct (lower_bound (freeSpans_ pc) n) as [[k head]|].
  - destruct head as [S|]; [|done]. cbn [mbind option_bind].
    destruct (spans pc !! S) as [s|] eqn:HS; [|done]. cbn [mbind option_bind].
    pose proof (fresh_span_not_live (spans pc)) as Hfresh.
    case_bool_decide as Hsplit.
    + rewrite lookup_insert_eq. cbn [mbind option_bind pageAddr set_numPages].
      intros [= <- <- <-] b X Hb. cbn [spanMap_ spans] in *.
      destruct (decide (b = pageAddr s)) as [->|Hne].
      * rewrite lookup_insert_eq in Hb. injection Hb as <-.
        rewrite lookup_insert_eq. by eexists.
      * rewrite lookup_insert_ne in Hb by done.
        destruct (Hok b X Hb) as (sx & HX & Haddr).
        assert (X <> S) by congruence.
        assert (X <> fresh (dom (spans pc))) by congruence.
        rewrite !lookup_insert_ne by done. by exists sx.
    + rewrite HS. cbn [mbind option_bind].
      intros [= <- <- <-] b X Hb. cbn [spanMap_ spans] in *.
      destruct (decide (b = pageAddr s)) as [->|Hne].
      * rewrite lookup_insert_eq in Hb. injection Hb as <-. by exists s.
      * rewrite lookup_insert_ne in Hb by done. by apply Hok.
  - destruct (systemAlloc os m n) as [memory m1].
    pose proof (fresh_span_not_live (spans pc)) as Hfresh.
    case_bool_decide; intros [= <- <- <-]; [done|].
    intros b X Hb. cbn [spanMap_ spans] in *.
    destruct (decide (b = memory)) as [->|Hne].
    + rewrite lookup_insert_eq in Hb. injection Hb as <-.
      rewrite lookup_insert_eq. by eexists.
    + rewrite lookup_insert_ne in Hb by done.
      destruct (Hok b X Hb) as (sx & HX & Haddr).
      assert (X <> fresh (dom (spans pc))) by congruence.
      rewrite lookup_insert_ne by done. by exists sx.
Qed.

Lemma registry_ok_run fuel : forall ops mp mp',
  registry_ok mp.2 -> run_page fuel ops mp = Some mp' -> registry_ok mp'.2.
Proof.
  induction ops as [|[os n|ptr n] ops IH]; intros mp mp' Hok H.
  - by injection H as <-.
  - cbn [run_page] in H.
    destruct (allocateSpan os mp.1 mp.2 n) as [[[a m1] pc1]|] eqn:Ha; [|done].
    cbn [mbind option_bind] in H. eapply IH; [|exact H].
    cbn [snd]. by eapply allocateSpan_registry_ok.
  - cbn [run_page] in H.
    destruct (deallocateSpan fuel mp.2 ptr n) as [pc1|] eqn:Hd; [|done].
    cbn [mbind option_bind] in H. eapply IH; [|exact H].
    cbn [snd]. by eapply deallocateSpan_registry_ok.
Qed.

Lemma registry_ok_empty : registry_ok PageCache.empty.
Proof. intros a S Ha. cbn in Ha. by rewrite lookup_empty in Ha. Qed.

(** X15: in every state the page cache reaches from its initial state, by
    any calls with any arguments and any answers of the OS, each registry
    entry leads to a live span that starts at the registered address. *)
Theorem registry_ok_reachable fuel ops m0 m pc :
  run_page fuel ops (m0, PageCache.empty) = Some (m, pc) -> registry_ok pc.
Proof.
  intros H.
  exact (registry_ok_run fuel ops (m0, PageCache.empty) (m, pc) registry_ok_empty H).
Qed.

Lemma pc_two_used_reached :
  snd <$> run_page 3 [Allocate (Some 65536) 3; Deallocate 65536 3;
                      Allocate None 1; Allocate None 2]
                   (zeroed, PageCache.empty)
    = Some pc_two_used.
Proof. vm_compute. reflexivity. Qed.

Lemma pc_two_used_registry_ok : registry_ok pc_two_used.
Proof.
  pose proof pc_two_used_reached as Hrun.
  destruct (run_page 3 [Allocate (Some 65536) 3; Deallocate 65536 3;
                        Allocate None 1; Allocate None 2]
                     (zeroed, PageCache.empty)) as [[m pc]|] eqn:E;
    [|discriminate Hrun].
  injection Hrun as <-.
  exact (registry_ok_run 3 _ (zeroed, PageCache.empty) (m, pc) registry_ok_empty E).
Qed.

Lemma registry_ok_reachable_witness : registry_ok pc_two_used.
Proof.
  pose proof pc_two_used_reached as Hrun.
  destruct (run_page 3 [Allocate (Some 65536) 3; Deallocate 65536 3;
                        Allocate None 1; Allocate None 2]
                     (zeroed, PageCache.empty)) as [[m pc]|] eqn:E;
    [|discriminate Hrun].
  injection Hrun as <-.
  exact (registry_ok_reachable _ _ _ _ _ E).
Defined.

(** Serving a request from a bucket keyed by the requested page count whose
    head span has that many pages. *)
Lemma allocateSpan_exact os m pc n S s :
  freeSpans_ pc !! n = Some (Some S) -> spans pc !! S = Some s ->
  numPages s = n ->
  exists pc',
    allocateSpan os m pc n = Some (pageAddr s, m, pc') /\
    spans pc' = spans pc /\
    spanMap_ pc' = <[pageAddr s := S]> (spanMap_ pc) /\
    bucket pc' n = next s.
Proof.
  intros Hk HS Hn. unfold allocateSpan.
  rewrite (lower_bound_exact _ _ _ Hk). cbn [mbind option_bind].
  rewrite HS. cbn [mbind option_bind].
  rewrite bool_decide_eq_false_2 by lia. rewrite HS. cbn [mbind option_bind].
  eexists. split; [done|]. cbn [spans spanMap_]. split; [done|]. split; [done|].
  unfold bucket. cbn [freeSpans_].
  destruct (next s); [by rewrite lookup_insert_eq | by rewrite lookup_delete_eq].
Qed.

(** X16: a span that was released is the first to be handed out again for
    its page count.  After [deallocateSpan] the span's record holds its
    resulting page count: its own when no span registered at the forward
    neighbour's address is free, the sum of both (in [size_t] arithmetic)
    when a free one was merged into it.  [allocateSpan] of that page count
    then returns the same base address, whatever the OS would answer,
    registers the span again and leaves its record as it is. *)
Theorem deallocate_then_allocate fuel pc ptr n S s :
  let nextAddr := ptr_add ptr (wrap64 (n * PAGE_SIZE)) in
  registry_ok pc ->
  spanMap_ pc !! ptr = Some S -> spans pc !! S = Some s ->
  (forall S', spanMap_ pc !! nextAddr = Some S' ->
     S' <> S /\
     exists s' l, spans pc !! S' = Some s' /\
                  is_chain (spans pc) (bucket pc (numPages s')) l /\
                  (S ∉ l) /\ (length l < fuel)%nat) ->
  exists pc1 sF,
    deallocateSpan fuel pc ptr n = Some pc1 /\
    spans pc1 !! S = Some sF /\
    ((forall S', spanMap_ pc !! nextAddr = Some S' -> ~ on_free_list pc S') ->
     numPages sF = numPages s) /\
    (forall S' s',
       spanMap_ pc !! nextAddr = Some S' -> spans pc !! S' = Some s' ->
       on_free_list pc S' ->
       numPages sF = wrap64 (numPages s + numPages s')) /\
    forall os m, exists pc2,
      allocateSpan os m pc1 (numPages sF) = Some (ptr, m, pc2) /\
      spanMap_ pc2 !! ptr = Some S /\
      spans pc2 !! S = Some sF.
Proof.
  intros nextAddr Hok Hp HS Hwf.
  destruct (Hok ptr S Hp) as (s0 & HS0 & Haddr).
  assert (s0 = s) as -> by congruence.
  assert (Hfinish : forall pc1 pages nx,
            spans pc1 !! S = Some (mkSpan (pageAddr s) pages nx) ->
            freeSpans_ pc1 !! pages = Some (Some S) ->
            forall os m, exists pc2,
              allocateSpan os m pc1 pages = Some (ptr, m, pc2) /\
              spanMap_ pc2 !! ptr = Some S /\
              spans pc2 !! S = Some (mkSpan (pageAddr s) pages nx)).
  { intros pc1 pages nx H1 H2 os m.
    destruct (allocateSpan_exact os m pc1 pages S _ H2 H1 eq_refl)
      as (pc2 & Ha & Hsp & Hm & _).
    cbn [pageAddr] in Ha, Hm. rewrite Haddr in Ha, Hm.
    exists pc2. split; [done|]. split; [by rewrite Hm, lookup_insert_eq|].
    by rewrite Hsp. }
  destruct (spanMap_ pc !! nextAddr) as [S0|] eqn:Hn.
  - destruct (Hwf S0 eq_refl) as (Hne & s1 & l0 & HS1 & Hc0 & HSl & Hfuel).
    destruct (deallocateSpan_neighbour fuel pc ptr n S s S0 s1 l0)
      as (pc1 & Hd & H1 & H2 & _); try done.
    cbv zeta in H1, H2.
    eexists pc1, _. split; [done|]. split; [exact H1|]. cbn [numPages].
    split; [|split; [|by eapply Hfinish]].
    + intros Hfree. rewrite bool_decide_eq_false_2; [done|].
      intros Hin. apply (Hfree S0 eq_refl). by exists s1, l0.
    + intros S' s' [= <-] HS' (s2 & l2 & Hs2 & Hc2 & Hin2).
      assert (s' = s1) as -> by congruence.
      assert (s2 = s1) as -> by congruence.
      rewrite (is_chain_functional _ _ _ _ Hc2 Hc0) in Hin2.
      by rewrite bool_decide_eq_true_2.
  - rewrite (deallocateSpan_no_neighbour fuel pc ptr n S s) by done.
    eexists _, _. split; [done|]. cbn [spans freeSpans_].
    split; [by rewrite lookup_insert_eq|].
    destruct s as [a k nx]. cbn [numPages set_next pageAddr] in *.
    split; [done|]. split; [intros S' s' [=]|].
    eapply Hfinish; cbn [spans freeSpans_]; by rewrite lookup_insert_eq.
Qed.

Lemma pc_two_used_neighbour S' :
  spanMap_ pc_two_used !! ptr_add 65536 (wrap64 (1 * PAGE_SIZE)) = Some S' ->
  S' <> 1%positive /\
  exists s' l, spans pc_two_used !! S' = Some s' /\
               is_chain (spans pc_two_used) (bucket pc_two_used (numPages s')) l /\
               (1%positive ∉ l) /\ (length l < 3)%nat.
Proof.
  intros H. vm_compute in H. injection H as <-. split; [done|].
  exists (mkSpan 69632 2 None), [].
  split; [reflexivity|]. split; [reflexivity|].
  split; [by intros ?%elem_of_nil | simpl; lia].
Qed.

Lemma deallocate_then_allocate_witness :
  exists pc1 sF,
    deallocateSpan 3 pc_two_used 65536 1 = Some pc1 /\
    spans pc1 !! 1%positive = Some sF /\
    numPages sF = 1 /\
    forall os m, exists pc2,
      allocateSpan os m pc1 (numPages sF) = Some (65536, m, pc2) /\
      spanMap_ pc2 !! 65536 = Some 1%positive /\
      spans pc2 !! 1%positive = Some sF.
Proof.
  destruct (deallocate_then_allocate 3 pc_two_used 65536 1 1%positive
              (mkSpan 65536 1 None))
    as (pc1 & sF & Hd & Hs & Hown & _ & Ha);
    [exact pc_two_used_registry_ok | reflexivity | reflexivity
     | exact pc_two_used_neighbour |].
  exists pc1, sF. split; [exact Hd|]. split; [exact Hs|]. split; [|exact Ha].
  apply Hown. intros S' Hreg (s' & l & Hs' & Hc & Hin).
  vm_compute in Hreg. injection Hreg as <-.
  vm_compute in Hs'. injection Hs' as <-.
  assert (l = []) as -> by (destruct l; [done | destruct Hc as [Hc _]; discriminate Hc]).
  by apply elem_of_nil in Hin.
Defined.

(** X17: releasing a span whose registered forward neighbour has a page
    count with no free-span bucket creates that bucket with a null head,
    and leaves it so when the released span has another page count.  The
    next [allocateSpan] for the neighbour's page count takes that bucket,
    dereferences its null head and does not return. *)
Theorem deallocate_leaves_null_bucket fuel pc ptr n S s S' s' :
  spanMap_ pc !! ptr = Some S -> spans pc !! S = Some s ->
  spanMap_ pc !! ptr_add ptr (wrap64 (n * PAGE_SIZE)) = Some S' ->
  spans pc !! S' = Some s' ->
  freeSpans_ pc !! numPages s' = None -> numPages s <> numPages s' ->
  exists pc1,
    deallocateSpan fuel pc ptr n = Some pc1 /\
    freeSpans_ pc1 !! numPages s' = Some None /\
    forall os m, allocateSpan os m pc1 (numPages s') = None.
Proof.
  intros Hp HS Hn HS' Hnone Hne.
  unfold deallocateSpan. rewrite Hp, Hn. unfold coalesce.
  rewrite HS'. cbn [mbind option_bind]. rewrite Hnone. cbn [default].
  destruct (decide (None = Some S')) as [?|_]; [done|].
  cbn [mbind option_bind spans]. rewrite HS. cbn [mbind option_bind freeSpans_].
  eexists. split; [done|]. cbn [freeSpans_].
  assert (Hnull : <[numPages s := Some S]> (<[numPages s' := None]> (freeSpans_ pc))
                    !! numPages s' = Some None).
  { rewrite lookup_insert_ne by done. by rewrite lookup_insert_eq. }
  split; [done|]. intros os m. unfold allocateSpan. cbn [freeSpans_].
  by rewrite (lower_bound_exact _ _ _ Hnull).
Qed.

Lemma deallocate_leaves_null_bucket_witness :
  exists pc1,
    deallocateSpan 3 pc_two_used 65536 1 = Some pc1 /\
    freeSpans_ pc1 !! 2 = Some None /\
    forall os m, allocateSpan os m pc1 2 = None.
Proof.
  apply (deallocate_leaves_null_bucket 3 pc_two_used 65536 1 1%positive
           (mkSpan 65536 1 None) 2%positive (mkSpan 69632 2 None));
    [reflexivity | reflexivity | reflexivity | reflexivity | reflexivity
     | cbn; lia].
Defined.

(** X18: the page cache does not detect a double release.  A registered
    span released twice in a row becomes its own successor on the free
    list, and the next two [allocateSpan] calls for its page count both
    return its address. *)
Theorem double_release_hands_out_twice fuel pc ptr n S s :
  registry_ok pc ->
  spanMap_ pc !! ptr = Some S -> spans pc !! S = Some s ->
  spanMap_ pc !! ptr_add ptr (wrap64 (n * PAGE_SIZE)) = None ->
  exists pc1 pc2,
    deallocateSpan fuel pc ptr n = Some pc1 /\
    deallocateSpan fuel pc1 ptr n = Some pc2 /\
    (exists s2, spans pc2 !! S = Some s2 /\ next s2 = Some S) /\
    forall os os' m, exists pc3 pc4,
      allocateSpan os m pc2 (numPages s) = Some (ptr, m, pc3) /\
      allocateSpan os' m pc3 (numPages s) = Some (ptr, m, pc4).
Proof.
  intros Hok Hp HS Hn.
  destruct (Hok ptr S Hp) as (s0 & HS0 & Haddr).
  assert (s0 = s) as -> by congruence.
  rewrite (deallocateSpan_no_neighbour fuel pc ptr n S s) by done.
  eexists _, _. split; [done|].
  set (pc1 := PageCache.mkState _ _ _).
  assert (HS1 : spans pc1 !! S = Some (set_next s (bucket pc (numPages s))))
    by (unfold pc1; cbn [spans]; by rewrite lookup_insert_eq).
  rewrite (deallocateSpan_no_neighbour fuel pc1 ptr n S _ Hp HS1 Hn).
  split; [done|]. cbn [numPages set_next].
  set (pc2 := PageCache.mkState _ _ _).
  assert (Hb1 : bucket pc1 (numPages s) = Some S)
    by (unfold bucket, pc1; cbn [freeSpans_]; by rewrite lookup_insert_eq).
  assert (HS2 : spans pc2 !! S = Some (mkSpan (pageAddr s) (numPages s) (Some S))).
  { unfold pc2. cbn [spans]. rewrite lookup_insert_eq.
    unfold set_next. cbn [pageAddr numPages].
    unfold bucket. cbn [freeSpans_]. by rewrite lookup_insert_eq. }
  assert (Hk2 : freeSpans_ pc2 !! numPages s = Some (Some S))
    by (unfold pc2; cbn [freeSpans_]; by rewrite lookup_insert_eq).
  split; [by eexists|]. intros os os' m.
  destruct (allocateSpan_exact os m pc2 (numPages s) S _ Hk2 HS2 eq_refl)
    as (pc3 & Ha3 & Hs3 & _ & Hb3).
  cbn [pageAddr next] in Ha3, Hb3. rewrite Haddr in Ha3.
  assert (Hk3 : freeSpans_ pc3 !! numPages s = Some (Some S)).
  { unfold bucket in Hb3.
    destruct (freeSpans_ pc3 !! numPages s) as [v|]; simpl in Hb3; congruence. }
  assert (HS3 : spans pc3 !! S = Some (mkSpan (pageAddr s) (numPages s) (Some S)))
    by (by rewrite Hs3).
  destruct (allocateSpan_exact os' m pc3 (numPages s) S _ Hk3 HS3 eq_refl)
    as (pc4 & Ha4 & _).
  cbn [pageAddr] in Ha4. rewrite Haddr in Ha4.
  by exists pc3, pc4.
Qed.

Lemma double_release_hands_out_twice_witness :
  exists pc1 pc2,
    deallocateSpan 3 pc_two_used 69632 2 = Some pc1 /\
    deallocateSpan 3 pc1 69632 2 = Some pc2 /\
    forall os os' m, exists pc3 pc4,
      allocateSpan os m pc2 2 = Some (69632, m, pc3) /\
      allocateSpan os' m pc3 2 = Some (69632, m, pc4).
Proof.
  destruct (double_release_hands_out_twice 3 pc_two_used 69632 2 2%positive
              (mkSpan 69632 2 None))
    as (pc1 & pc2 & Hd1 & Hd2 & _ & Ha);
    [exact pc_two_used_registry_ok | reflexivity | reflexivity | reflexivity |].
  exists pc1, pc2. split; [exact Hd1|]. split; [exact Hd2 | exact Ha].
Defined.

(** ** Central cache: further properties *)

Lemma is_list_nonzero m l : forall p a, is_list m p l -> a ∈ l -> a <> 0.
Proof.
  induction l as [|b l IH]; intros p a H Ha; [by apply elem_of_nil in Ha|].
  destruct H as (-> & Hnz & H). apply elem_of_cons in Ha as [->|Ha]; eauto.
Qed.

Lemma is_list_after m t l2 : forall l1 p,
  is_list m p (l1 ++ t :: l2) -> is_list m (load m t) l2.
Proof.
  induction l1 as [|a l1 IH]; intros p H; simpl in H.
  - by destruct H as (_ & _ & H).
  - destruct H as (_ & _ & H). eauto.
Qed.

(** Redirecting the link of one block of a list to another list. *)
Lemma is_list_relink m t h l0 l2 : forall l1 p,
  is_list m p (l1 ++ t :: l2) -> t ∉ l1 ->
  is_list m h l0 -> t ∉ l0 ->
  is_list (store m t h) p (l1 ++ t :: l0).
Proof.
  induction l1 as [|a l1 IH]; intros p H Ht Hl0 Ht0.
  - destruct H as (-> & Hnz & _). simpl. split; [done|]. split; [done|].
    rewrite load_store_eq.
    eapply is_list_ext; [|exact Hl0].
    intros a Ha. apply load_store_ne. by intros ->.
  - destruct H as (-> & Hnz & H). apply not_elem_of_cons in Ht as [Hne Ht].
    simpl. split; [done|]. split; [done|].
    rewrite load_store_ne by done. by apply IH.
Qed.

(** The walk of [fetchRange] over a list: it stops on the block [t] where
    either the list ends or [batchNum] blocks have been counted. *)
Lemma take_blocks_stops m batchNum t l2 : forall l1 cur prev count fuel,
  is_list m cur (l1 ++ t :: l2) ->
  l2 = [] \/ count + Z.of_nat (length l1) + 1 = batchNum ->
  count + Z.of_nat (length l1) + 1 <= batchNum ->
  (length l1 + 1 <= fuel)%nat ->
  take_blocks fuel m cur prev count batchNum = (t, load m t).
Proof.
  induction l1 as [|a l1 IH]; intros cur prev count fuel H Hstop Hle Hfuel.
  - destruct H as (-> & Hnz & H). simpl in Hstop, Hle.
    destruct fuel as [|fuel]; [simpl in Hfuel; lia|]. cbn [take_blocks].
    rewrite bool_decide_eq_true_2 by done.
    rewrite bool_decide_eq_true_2 by lia. cbn [andb].
    destruct fuel as [|fuel]; [done|]. cbn [take_blocks].
    destruct Hstop as [->|Hstop].
    + simpl in H. rewrite H.
      rewrite bool_decide_eq_false_2 by (intros Hx; by apply Hx). done.
    + rewrite (bool_decide_eq_false_2 (count + 1 < batchNum)) by lia.
      by rewrite andb_false_r.
  - destruct H as (-> & Hnz & H). simpl in Hstop, Hle, Hfuel.
    destruct fuel as [|fuel]; [lia|]. cbn [take_blocks].
    rewrite bool_decide_eq_true_2 by done.
    rewrite bool_decide_eq_true_2 by lia. cbn [andb].
    apply IH; [done | | lia | lia].
    destruct Hstop as [?|?]; [by left | right; lia].
Qed.

Lemma head_of_insert m pc heads lk index v :
  head_of (CentralCache.mkState m pc (<[index := v]> heads) lk) index = v.
Proof. unfold head_of. cbn [centralFreeList_]. by rewrite lookup_insert_eq. Qed.

Lemma head_of_insert_ne m pc heads lk index j v :
  j <> index ->
  head_of (CentralCache.mkState m pc (<[index := v]> heads) lk) j
    = default 0 (heads !! j).
Proof. intros. unfold head_of. cbn [centralFreeList_]. by rewrite lookup_insert_ne. Qed.

Lemma fetchRange_from_list_aux os st index batchNum l :
  let k := Z.to_nat (Z.min batchNum (Z.of_nat (length l))) in
  0 <= index < FREE_LIST_SIZE -> 0 < batchNum ->
  locked st index = false ->
  l <> [] -> is_list (mem st) (head_of st index) l ->
  exists st',
    fetchRange os st index batchNum = Some (head_of st index, st') /\
    is_list (mem st') (head_of st index) (take k l) /\
    is_list (mem st') (head_of st' index) (drop k l) /\
    page st' = page st /\ locked st' index = false.
Proof.
  intros k Hi Hb Hl Hne Hlist.
  pose proof (is_list_NoDup _ _ _ Hlist) as Hnd.
  assert (Hlen : (0 < length l)%nat) by (destruct l; [done | simpl; lia]).
  assert (Hk : (1 <= k <= length l)%nat) by (unfold k; lia).
  assert (Hkb : Z.of_nat k <= batchNum) by (unfold k; lia).
  assert (Hstop : drop k l = [] \/ Z.of_nat k = batchNum).
  { destruct (Z_le_dec batchNum (Z.of_nat (length l))); [right; unfold k; lia|].
    left. apply drop_ge. unfold k. lia. }
  assert (Htk : take k l <> []).
  { intros Hnil. apply (f_equal length) in Hnil. rewrite length_take in Hnil.
    simpl in Hnil. lia. }
  destruct (exists_last Htk) as (l1 & t & Hlast).
  assert (Hl1 : (length l1 + 1 = k)%nat).
  { apply (f_equal length) in Hlast. rewrite length_take, length_app in Hlast.
    simpl in Hlast. lia. }
  assert (Hsplit : l = l1 ++ t :: drop k l).
  { rewrite <- (take_drop k l) at 1. rewrite Hlast, <- app_assoc. done. }
  rewrite Hlast. clearbody k. set (l2 := drop k l) in *. clearbody l2. subst l.
  apply NoDup_app in Hnd as (_ & Hdisj & Hnd2).
  apply NoDup_cons in Hnd2 as [Ht2 _].
  assert (Ht1 : t ∉ l1).
  { intros Hin. apply (Hdisj t Hin). apply elem_of_cons. by left. }
  assert (Hhead : head_of st index <> 0).
  { destruct l1; simpl in Hlist; destruct Hlist as (-> & Hnz & _); done. }
  assert (Htnz : t <> 0).
  { apply (is_list_nonzero _ _ _ t Hlist). apply elem_of_app. right.
    apply elem_of_cons. by left. }
  unfold fetchRange.
  rewrite bool_decide_eq_false_2 by lia.
  rewrite (bool_decide_eq_false_2 (batchNum = 0)) by lia. cbn [orb].
  rewrite Hl. rewrite (bool_decide_eq_false_2 (head_of st index = 0)) by done.
  rewrite (take_blocks_stops (mem st) batchNum t l2 l1).
  - rewrite (bool_decide_eq_false_2 (t = 0)) by done.
    eexists. split; [done|]. rewrite head_of_insert, locked_released.
    cbn [mem page].
    split; [|split; [|done]].
    + apply (is_list_relink (mem st) t 0 [] l2); [done | done | done |].
      by intros ?%elem_of_nil.
    + eapply is_list_ext; [|exact (is_list_after _ _ _ _ _ Hlist)].
      intros a Ha. apply load_store_ne. by intros ->.
  - done.
  - destruct Hstop as [?|?]; [by left | right; lia].
  - lia.
  - lia.
Qed.

(** X6: with a non-empty central list, [fetchRange] hands out its first
    [min batchNum (length l)] blocks as a null-terminated list, keeps the
    rest as the class's list, and leaves the page cache alone. *)
Theorem fetchRange_from_list os st index batchNum l :
  let k := Z.to_nat (Z.min batchNum (Z.of_nat (length l))) in
  0 <= index < FREE_LIST_SIZE -> 0 < batchNum ->
  locked st index = false ->
  l <> [] -> is_list (mem st) (head_of st index) l ->
  exists st',
    fetchRange os st index batchNum = Some (head_of st index, st') /\
    is_list (mem st') (head_of st index) (take k l) /\
    is_list (mem st') (head_of st' index) (drop k l) /\
    page st' = page st /\ locked st' index = false.
Proof. exact (fetchRange_from_list_aux os st index batchNum l). Qed.

(** The tail search of [returnRange] over a list: it stops on the block [t]
    where either the list ends or [count] has reached [size]. *)
Lemma find_tail_stops m size t l2 : forall l1 p c fuel,
  is_list m p (l1 ++ t :: l2) ->
  l1 = [] \/ c + Z.of_nat (length l1) <= size ->
  l2 = [] \/ size <= c + Z.of_nat (length l1) ->
  (length l1 <= fuel)%nat ->
  find_tail fuel m p c size = t.
Proof.
  induction l1 as [|a l1 IH]; intros p c fuel H Hgo Hstop Hfuel.
  - destruct H as (-> & _ & H). destruct fuel; [done|]. cbn [find_tail].
    destruct Hstop as [->|Hstop].
    + simpl in H. rewrite H.
      rewrite bool_decide_eq_false_2 by (intros Hx; by apply Hx). done.
    + simpl in Hstop. rewrite (bool_decide_eq_false_2 (c < size)) by lia.
      by rewrite andb_false_r.
  - destruct H as (-> & _ & H).
    destruct Hgo as [?|Hgo]; [done|]. simpl in Hgo, Hstop, Hfuel.
    destruct fuel as [|fuel]; [lia|]. cbn [find_tail].
    assert (Hnz : load m a <> 0).
    { destruct l1; simpl in H; destruct H as (-> & Hnz & _); done. }
    rewrite bool_decide_eq_true_2 by done.
    rewrite bool_decide_eq_true_2 by lia. cbn [andb].
    apply IH; [done | right; lia | | lia].
    destruct Hstop as [?|?]; [by left | right; lia].
Qed.

Lemma returnRange_keeps_prefix_aux st start size index l l0 :
  let k := Z.to_nat (Z.max 1 (Z.min size (Z.of_nat (length l)))) in
  0 <= index < FREE_LIST_SIZE -> locked st index = false ->
  l <> [] -> is_list (mem st) start l ->
  is_list (mem st) (head_of st index) l0 ->
  (forall a, a ∈ take k l -> a ∉ l0) ->
  exists st',
    returnRange st start size index = Some st' /\
    head_of st' index = start /\
    is_list (mem st') start (take k l ++ l0) /\
    page st' = page st /\ locked st' index = false.
Proof.
  intros k Hi Hl Hne Hlist Hl0 Hdisj0.
  pose proof (is_list_NoDup _ _ _ Hlist) as Hnd.
  assert (Hlen : (0 < length l)%nat) by (destruct l; [done | simpl; lia]).
  assert (Hk : (1 <= k <= length l)%nat) by (unfold k; lia).
  assert (Hgo : k = 1%nat \/ Z.of_nat k <= size) by (unfold k; lia).
  assert (Hstop : drop k l = [] \/ size <= Z.of_nat k).
  { destruct (Z_le_dec size (Z.of_nat (length l))); [right; unfold k; lia|].
    left. apply drop_ge. unfold k. lia. }
  assert (Htk : take k l <> []).
  { intros Hnil. apply (f_equal length) in Hnil. rewrite length_take in Hnil.
    simpl in Hnil. lia. }
  destruct (exists_last Htk) as (l1 & t & Hlast).
  assert (Hl1 : (length l1 + 1 = k)%nat).
  { apply (f_equal length) in Hlast. rewrite length_take, length_app in Hlast.
    simpl in Hlast. lia. }
  assert (Hsplit : l = l1 ++ t :: drop k l).
  { rewrite <- (take_drop k l) at 1. rewrite Hlast, <- app_assoc. done. }
  rewrite Hlast in Hdisj0 |- *. clearbody k.
  set (l2 := drop k l) in *. clearbody l2. subst l.
  apply NoDup_app in Hnd as (_ & Hdisj & _).
  assert (Ht1 : t ∉ l1).
  { intros Hin. apply (Hdisj t Hin). apply elem_of_cons. by left. }
  assert (Hstart : start <> 0).
  { destruct l1; simpl in Hlist; destruct Hlist as (-> & Hnz & _); done. }
  unfold returnRange.
  rewrite (bool_decide_eq_false_2 (start = 0)) by done.
  rewrite bool_decide_eq_false_2 by lia. cbn [orb]. rewrite Hl.
  rewrite (find_tail_stops (mem st) size t l2 l1).
  - eexists. split; [done|]. rewrite head_of_insert, locked_released. cbn [mem page].
    split; [done|]. split; [|done].
    rewrite <- app_assoc.
    apply (is_list_relink (mem st) t _ l0 l2); [done | done | done |].
    apply Hdisj0. apply elem_of_app. right. apply elem_of_cons. by left.
  - done.
  - destruct l1 as [|a l1']; [by left|right]. simpl in Hl1 |- *.
    destruct Hgo as [?|?]; lia.
  - destruct Hstop as [?|?]; [by left | right; lia].
  - destruct Hgo as [?|?]; lia.
Qed.

(** X7: [returnRange] puts in front of the class's central list exactly the
    first [max 1 (min size (length l))] blocks of the incoming list: all of
    it when it has at most [size] blocks, and a prefix otherwise. *)
Theorem returnRange_keeps_prefix st start size index l l0 :
  let k := Z.to_nat (Z.max 1 (Z.min size (Z.of_nat (length l)))) in
  0 <= index < FREE_LIST_SIZE -> locked st index = false ->
  l <> [] -> is_list (mem st) start l ->
  is_list (mem st) (head_of st index) l0 ->
  (forall a, a ∈ take k l -> a ∉ l0) ->
  exists st',
    returnRange st start size index = Some st' /\
    head_of st' index = start /\
    is_list (mem st') start (take k l ++ l0) /\
    page st' = page st /\ locked st' index = false.
Proof. exact (returnRange_keeps_prefix_aux st start size index l l0). Qed.

Lemma carve_span_other_heads m1 heads start size index batchNum j :
  j <> index ->
  (carve_span m1 heads start size index batchNum).2 !! j = heads !! j.
Proof.
  intros Hj. unfold carve_span. case_bool_decide; cbn [snd]; [|done].
  by rewrite lookup_insert_ne.
Qed.

Lemma locked_after_release (locks : gmap Z bool) index j :
  default false (locks !! index) = false ->
  default false (<[index := false]> (<[index := true]> locks) !! j)
    = default false (locks !! j).
Proof.
  intros Hl. destruct (decide (j = index)) as [->|Hne].
  - by rewrite lookup_insert_eq, Hl.
  - by rewrite !lookup_insert_ne.
Qed.

(** X8: whenever [fetchRange] returns, every class lock is in the state it
    was in before the call and the central lists of all other classes are
    untouched. *)
Theorem fetchRange_frame os st index batchNum r st' :
  fetchRange os st index batchNum = Some (r, st') ->
  (forall j, locked st' j = locked st j) /\
  (forall j, j <> index -> head_of st' j = head_of st j).
Proof.
  unfold fetchRange.
  destruct (bool_decide (FREE_LIST_SIZE <= index) || bool_decide (batchNum = 0)).
  { intros [= <- <-]. done. }
  destruct (locked st index) eqn:Hl; [done|].
  case_bool_decide as Hh.
  - destruct (fetchFromPageCache _ _ _ _) as [[[r0 m1] pc1]|]; [|done].
    cbn [mbind option_bind]. case_bool_decide.
    + intros [= <- <-]. unfold locked, head_of. cbn [locks_ centralFreeList_].
      split; [|done]. intros j. by apply locked_after_release.
    + destruct (carve_span _ _ _ _ _ _) as [m3 heads] eqn:Hc.
      intros [= <- <-]. unfold locked, head_of. cbn [locks_ centralFreeList_].
      split; [intros j; by apply locked_after_release|].
      intros j Hj. f_equal.
      change heads with (m3, heads).2. rewrite <- Hc.
      by apply carve_span_other_heads.
  - destruct (take_blocks _ _ _ _ _ _) as [prev current].
    intros [= <- <-]. unfold locked, head_of. cbn [locks_ centralFreeList_].
    split; [intros j; by apply locked_after_release|].
    intros j Hj. by rewrite lookup_insert_ne.
Qed.

(** X19: whenever [returnRange] returns, every class lock is in the state
    it was in before the call, the central lists of all other classes and
    the page cache are untouched, and at most one word of memory has
    changed. *)
Theorem returnRange_frame st start size index st' :
  returnRange st start size index = Some st' ->
  (forall j, locked st' j = locked st j) /\
  (forall j, j <> index -> head_of st' j = head_of st j) /\
  page st' = page st /\
  exists t, forall a, a <> t -> load (mem st') a = load (mem st) a.
Proof.
  unfold returnRange.
  destruct (bool_decide (start = 0) || bool_decide (FREE_LIST_SIZE <= index)).
  { intros [= <-]. split; [done|]. split; [done|]. split; [done|]. by exists 0. }
  destruct (locked st index) eqn:Hl; [done|].
  intros [= <-]. unfold locked, head_of. cbn [locks_ centralFreeList_ page mem].
  split; [intros j; by apply locked_after_release|]. split; [|split; [done|]].
  - intros j Hj. by rewrite lookup_insert_ne.
  - eexists. intros a Ha. by apply load_store_ne.
Qed.

(** X9: a list returned to an empty class and fetched back whole comes back
    as it was: same head, same blocks, and the class is empty again. *)
Theorem return_then_fetch os st start size index batchNum l :
  0 <= index < FREE_LIST_SIZE -> locked st index = false ->
  head_of st index = 0 ->
  l <> [] -> is_list (mem st) start l ->
  Z.of_nat (length l) <= size -> Z.of_nat (length l) <= batchNum ->
  exists st1 st2,
    returnRange st start size index = Some st1 /\
    fetchRange os st1 index batchNum = Some (start, st2) /\
    is_list (mem st2) start l /\
    head_of st2 index = 0 /\
    page st2 = page st.
Proof.
  intros Hi Hl Hh Hne Hlist Hsize Hbatch.
  assert (Hlen : (0 < length l)%nat) by (destruct l; [done | simpl; lia]).
  destruct (returnRange_keeps_prefix_aux st start size index l [])
    as (st1 & Hr & Hh1 & Hl1 & Hp1 & Hlk1);
    [done | done | done | done | by rewrite Hh | by intros a _ ?%elem_of_nil |].
  replace (Z.to_nat _) with (length l) in Hl1 by lia.
  rewrite firstn_all, app_nil_r in Hl1.
  destruct (fetchRange_from_list_aux os st1 index batchNum l)
    as (st2 & Hf & Hl2 & Hrest & Hp2 & Hlk2);
    [done | lia | done | done | by rewrite Hh1 |].
  replace (Z.to_nat _) with (length l) in Hl2, Hrest by lia.
  rewrite firstn_all in Hl2. rewrite drop_all in Hrest.
  rewrite Hh1 in Hf, Hl2.
  exists st1, st2. split; [done|]. split; [done|]. split; [done|].
  split; [exact Hrest | congruence].
Qed.

Lemma take_block_seq start size : forall n k i,
  take k (block_seq start size i n) = block_seq start size i (k `min` n)%nat.
Proof.
  induction n as [|n IH]; intros [|k] i; simpl; try done.
  by rewrite IH.
Qed.

(** X10: after a refill that handed out fewer blocks than the span holds,
    the next [fetchRange] of the class is served from the blocks left on the
    central list, starting right after the ones handed out, without a call
    on the page cache. *)
Theorem refill_then_fetch os os2 st index batchNum b2 start m1 pc1 :
  let size := (index + 1) * ALIGNMENT in
  let T := (SPAN_PAGES * PAGE_SIZE) / size in
  0 <= index < FREE_LIST_SIZE -> 0 < batchNum < T -> 0 < b2 ->
  locked st index = false -> head_of st index = 0 ->
  fetchFromPageCache os (mem st) (page st) size = Some (start, m1, pc1) ->
  0 < start -> start + SPAN_PAGES * PAGE_SIZE <= 2 ^ 64 ->
  exists st1 st2,
    fetchRange os st index batchNum = Some (start, st1) /\
    fetchRange os2 st1 index b2 = Some (start + batchNum * size, st2) /\
    page st2 = pc1 /\
    is_list (mem st2) (start + batchNum * size)
            (block_seq start size batchNum (Z.to_nat (Z.min b2 (T - batchNum)))).
Proof.
  intros size T Hi Hb Hb2 Hl Hh Hp Hs Hfit.
  pose proof (class_size_bounds index Hi) as Hsz. fold size in Hsz.
  rewrite (fetchRange_refill os st index batchNum start m1 pc1) by (done || lia).
  rewrite bool_decide_eq_false_2 by lia. fold size.
  destruct (carve_span_spec m1 (centralFreeList_ st) start size index batchNum)
    as (_ & _ & H3 & _); [done|done|lia|lia|].
  fold T in H3. rewrite Z.min_l in H3 by lia.
  destruct (H3 ltac:(lia)) as (Hheads & Hrem).
  set (r := carve_span _ _ _ _ _ _) in *.
  eexists. 
  set (st1 := CentralCache.mkState r.1 pc1 r.2 _).
  assert (Hh1 : head_of st1 index = start + batchNum * size).
  { unfold st1, head_of. cbn [centralFreeList_]. by rewrite Hheads, lookup_insert_eq. }
  destruct (fetchRange_from_list_aux os2 st1 index b2
              (block_seq start size batchNum (Z.to_nat (T - batchNum))))
    as (st2 & Hf & Hl2 & _ & Hp2 & _).
  - done.
  - done.
  - apply locked_released.
  - destruct (Z.to_nat (T - batchNum)) eqn:E; [lia|done].
  - rewrite Hh1. exact Hrem.
  - exists st2. split; [done|]. rewrite Hh1 in Hf, Hl2. split; [done|].
    split; [done|]. rewrite take_block_seq in Hl2.
    assert (Hlen : forall n i, length (block_seq start size i n) = n)
      by (induction n; intros; simpl; [done | by rewrite IHn]).
    rewrite Hlen in Hl2.
    replace (Z.to_nat (b2 `min` (T - batchNum)))
      with (Z.to_nat (b2 `min` Z.of_nat (Z.to_nat (T - batchNum)))
              `min` Z.to_nat (T - batchNum))%nat by lia.
    done.
Qed.

(** X11: [fetchFromPageCache] asks for a span large enough for one block of
    the class: exactly 8 pages for blocks up to 32768 bytes, and for larger
    blocks the least number of pages that holds the block. *)
Theorem fetchFromPageCache_enough_pages os m pc size :
  0 < size <= 2 ^ 64 - 4096 ->
  exists P,
    fetchFromPageCache os m pc size = allocateSpan os m pc P /\
    size <= P * PAGE_SIZE /\
    (size <= SPAN_PAGES * PAGE_SIZE -> P = SPAN_PAGES) /\
    (SPAN_PAGES * PAGE_SIZE < size -> (P - 1) * PAGE_SIZE < size).
Proof.
  intros Hs. unfold fetchFromPageCache.
  change (SPAN_PAGES * PAGE_SIZE) with 32768. unfold PAGE_SIZE.
  case_bool_decide as Hc.
  - exists SPAN_PAGES. split; [done|]. unfold SPAN_PAGES. lia.
  - exists ((size + 4095) / 4096).
    pose proof (Z.div_mod (size + 4095) 4096 ltac:(lia)) as Hdm.
    pose proof (Z.mod_pos_bound (size + 4095) 4096 ltac:(lia)) as Hmb.
    split.
    + unfold wrap64. rewrite Z.mod_small by lia. do 2 f_equal. lia.
    + split; [lia|]. split; [lia|]. lia.
Qed.

(** X20: after a refill of a class of blocks up to 32768 bytes, every block
    on the class's central list lies inside the 8-page span, at a multiple
    of the block size from its base, behind the blocks handed out. *)
Theorem refill_blocks_inside_span os st index batchNum start m1 pc1 :
  let size := (index + 1) * ALIGNMENT in
  let A := Z.min batchNum ((SPAN_PAGES * PAGE_SIZE) / size) in
  0 <= index < FREE_LIST_SIZE -> 0 < batchNum ->
  locked st index = false -> head_of st index = 0 ->
  fetchFromPageCache os (mem st) (page st) size = Some (start, m1, pc1) ->
  0 < start -> start + SPAN_PAGES * PAGE_SIZE <= 2 ^ 64 ->
  exists st',
    fetchRange os st index batchNum = Some (start, st') /\
    forall l a,
      is_list (mem st') (head_of st' index) l -> a ∈ l ->
      start + A * size <= a /\ a + size <= start + SPAN_PAGES * PAGE_SIZE /\
      (a - start) mod size = 0.
Proof.
  intros size A Hi Hb Hl Hh Hp Hs Hfit.
  pose proof (class_size_bounds index Hi) as Hsz. fold size in Hsz.
  rewrite (fetchRange_refill os st index batchNum start m1 pc1) by (done || lia).
  rewrite bool_decide_eq_false_2 by lia. fold size.
  eexists. split; [done|]. unfold head_of. cbn [mem centralFreeList_].
  destruct (carve_span_spec m1 (centralFreeList_ st) start size index batchNum)
    as (_ & _ & H3 & H4); [done|done|lia|done|].
  fold A in H3, H4.
  pose proof (total_blocks_bound size ltac:(lia)) as HT.
  set (T := SPAN_PAGES * PAGE_SIZE / size) in *.
  set (r := carve_span _ _ _ _ _ _) in *.
  intros l a Hlist Ha.
  destruct (Z_lt_dec A T) as [Hlt|Hge].
  - destruct (H3 Hlt) as (Hheads & Hrem).
    rewrite Hheads, lookup_insert_eq in Hlist. cbn [default] in Hlist.
    rewrite (is_list_functional _ _ _ _ Hlist Hrem) in Ha.
    apply (elem_of_block_seq start size) in Ha as (j & Hj & ->).
    change (SPAN_PAGES * PAGE_SIZE) with 32768.
    split; [nia|]. split; [nia|].
    replace (start + j * size - start) with (j * size) by lia.
    apply Z.mod_mul. lia.
  - rewrite H4 in Hlist by lia. fold (head_of st index) in Hlist.
    rewrite Hh in Hlist. destruct l; [by apply elem_of_nil in Ha|].
    by destruct Hlist as (? & ? & _).
Qed.

(** ** Examples for the further properties *)

Lemma chain9_is_list :
  is_list chain9 65536 (block_seq 65536 8 0 9).
Proof. vm_compute. repeat split; (reflexivity || discriminate). Qed.

Lemma fetchRange_from_list_witness :
  exists st',
    fetchRange None st_chain9_central 0 4 = Some (head_of st_chain9_central 0, st') /\
    is_list (mem st') (head_of st_chain9_central 0) (block_seq 65536 8 0 4) /\
    is_list (mem st') (head_of st' 0) (block_seq 65536 8 4 5).
Proof.
  destruct (fetchRange_from_list None st_chain9_central 0 4 (block_seq 65536 8 0 9))
    as (st' & Hf & H1 & H2 & _);
    [by vm_compute | lia | reflexivity | discriminate | exact chain9_is_list |].
  exists st'. split; [exact Hf|]. split; [exact H1 | exact H2].
Defined.

Lemma returnRange_keeps_prefix_witness :
  exists st',
    returnRange st_chain9 65536 8 0 = Some st' /\
    head_of st' 0 = 65536 /\
    is_list (mem st') 65536 (block_seq 65536 8 0 8 ++ []).
Proof.
  destruct (returnRange_keeps_prefix st_chain9 65536 8 0 (block_seq 65536 8 0 9) [])
    as (st' & Hr & Hh & Hl & _);
    [by vm_compute | reflexivity | discriminate | exact chain9_is_list
     | reflexivity | by intros a _ ?%elem_of_nil |].
  exists st'. split; [exact Hr|]. split; [exact Hh | exact Hl].
Defined.

Lemma fetchRange_frame_witness :
  exists st',
    fetchRange None st_chain9_central 0 4 = Some (65536, st') /\
    (forall j, locked st' j = locked st_chain9_central j) /\
    (forall j, j <> 0 -> head_of st' j = head_of st_chain9_central j).
Proof.
  destruct (fetchRange_from_list_aux None st_chain9_central 0 4 (block_seq 65536 8 0 9))
    as (st' & Hf & _);
    [by vm_compute | lia | reflexivity | discriminate | exact chain9_is_list |].
  exists st'. split; [exact Hf|].
  exact (fetchRange_frame None st_chain9_central 0 4 _ st' Hf).
Defined.

Lemma returnRange_frame_witness :
  exists st',
    returnRange st_chain9 65536 8 0 = Some st' /\
    (forall j, locked st' j = locked st_chain9 j) /\
    (forall j, j <> 0 -> head_of st' j = head_of st_chain9 j) /\
    page st' = page st_chain9.
Proof.
  destruct (returnRange_keeps_prefix_aux st_chain9 65536 8 0 (block_seq 65536 8 0 9) [])
    as (st' & Hr & _);
    [by vm_compute | reflexivity | discriminate | exact chain9_is_list
     | reflexivity | by intros a _ ?%elem_of_nil |].
  exists st'. split; [exact Hr|].
  destruct (returnRange_frame st_chain9 65536 8 0 st' Hr) as (H1 & H2 & H3 & _).
  split; [exact H1|]. split; [exact H2 | exact H3].
Defined.

Lemma return_then_fetch_witness :
  exists st1 st2,
    returnRange st_chain9 65536 16 0 = Some st1 /\
    fetchRange None st1 0 16 = Some (65536, st2) /\
    is_list (mem st2) 65536 (block_seq 65536 8 0 9) /\
    head_of st2 0 = 0 /\
    page st2 = page st_chain9.
Proof.
  apply (return_then_fetch None st_chain9 65536 16 0 16 (block_seq 65536 8 0 9));
    [by vm_compute | reflexivity | reflexivity | discriminate
     | exact chain9_is_list | by vm_compute | by vm_compute].
Defined.

Lemma fetchFromPageCache_class2047 :
  fetchFromPageCache None (mem st_dirty65) (page st_dirty65) ((2047 + 1) * ALIGNMENT)
    = Some (65536, dirty, pc_split65).
Proof. vm_compute. reflexivity. Qed.

Lemma refill_then_fetch_witness :
  exists st1 st2,
    fetchRange None st_dirty65 2047 1 = Some (65536, st1) /\
    fetchRange None st1 2047 5 = Some (65536 + 1 * ((2047 + 1) * ALIGNMENT), st2) /\
    page st2 = pc_split65.
Proof.
  destruct (refill_then_fetch None None st_dirty65 2047 1 5 65536 dirty pc_split65)
    as (st1 & st2 & H1 & H2 & H3 & _);
    [by vm_compute | by vm_compute | lia | reflexivity | reflexivity
     | exact fetchFromPageCache_class2047 | lia | by vm_compute |].
  exists st1, st2. split; [exact H1|]. split; [exact H2 | exact H3].
Defined.

Lemma refill_blocks_inside_span_witness :
  exists st',
    fetchRange None st_dirty65 2047 1 = Some (65536, st') /\
    forall l a,
      is_list (mem st') (head_of st' 2047) l -> a ∈ l ->
      65536 + 1 * 16384 <= a /\ a + 16384 <= 65536 + 32768 /\
      (a - 65536) mod 16384 = 0.
Proof.
  apply (refill_blocks_inside_span None st_dirty65 2047 1 65536 dirty pc_split65);
    [by vm_compute | lia | reflexivity | reflexivity
     | exact fetchFromPageCache_class2047 | lia | by vm_compute].
Defined.

Lemma fetchFromPageCache_enough_pages_witness :
  (exists P,
     fetchFromPageCache None dirty pc_free65 100 = allocateSpan None dirty pc_free65 P /\
     100 <= P * PAGE_SIZE /\
     (100 <= SPAN_PAGES * PAGE_SIZE -> P = SPAN_PAGES) /\
     (SPAN_PAGES * PAGE_SIZE < 100 -> (P - 1) * PAGE_SIZE < 100)) /\
  (exists P,
     fetchFromPageCache None dirty pc_free65 40000 = allocateSpan None dirty pc_free65 P /\
     40000 <= P * PAGE_SIZE /\
     (40000 <= SPAN_PAGES * PAGE_SIZE -> P = SPAN_PAGES) /\
     (SPAN_PAGES * PAGE_SIZE < 40000 -> (P - 1) * PAGE_SIZE < 40000)).
Proof.
  split.
  - apply (fetchFromPageCache_enough_pages None dirty pc_free65 100). by vm_compute.
  - apply (fetchFromPageCache_enough_pages None dirty pc_free65 40000). by vm_compute.
Defined.

(** X21: a span cut to size by [allocateSpan] and released again is not
    rejoined with the tail that was split off it.  The tail is not in the
    registry, so [deallocateSpan] finds no forward neighbour: the span keeps
    its [n] pages and goes back on a free list, with the tail free right
    behind it. *)
Theorem split_then_release_not_rejoined fuel os m pc n k S s :
  let S' := fresh (dom (spans pc)) in
  let rest := numPages s - n in
  lower_bound (freeSpans_ pc) n = Some (k, Some S) ->
  spans pc !! S = Some s ->
  0 < n < numPages s ->
  0 <= pageAddr s ->
  pageAddr s + numPages s * PAGE_SIZE <= 2 ^ 64 ->
  spanMap_ pc !! (pageAddr s + n * PAGE_SIZE) = None ->
  exists pc1 pc2 sF tail,
    allocateSpan os m pc n = Some (pageAddr s, m, pc1) /\
    deallocateSpan fuel pc1 (pageAddr s) n = Some pc2 /\
    spans pc2 !! S = Some sF /\ numPages sF = n /\
    spans pc2 !! S' = Some tail /\ numPages tail = rest /\
    pageAddr sF + numPages sF * PAGE_SIZE = pageAddr tail /\
    freeSpans_ pc2 !! n = Some (Some S) /\
    (bucket pc2 rest = Some S' \/ (rest = n /\ next sF = Some S')).
Proof.
  intros S' rest Hlb HS Hn Hbase Hfit Htail.
  destruct (allocateSpan_split_result os m pc n k S s)
    as (pc1 & Ha & Hfresh & HS1' & Hk1 & HS1 & Hm1); try done; [lia|].
  fold S' in Hfresh, HS1', Hk1. fold rest in HS1', Hk1.
  assert (HneS : S' <> S) by congruence.
  assert (Hreg : spanMap_ pc1 !! pageAddr s = Some S)
    by (by rewrite Hm1, lookup_insert_eq).
  assert (Hnext : ptr_add (pageAddr s) (wrap64 (n * PAGE_SIZE))
                  = pageAddr s + n * PAGE_SIZE).
  { unfold wrap64. unfold PAGE_SIZE in *. rewrite Z.mod_small by lia.
    apply ptr_add_small. lia. }
  assert (Hnone : spanMap_ pc1 !! ptr_add (pageAddr s) (wrap64 (n * PAGE_SIZE)) = None).
  { rewrite Hnext, Hm1. rewrite lookup_insert_ne by (unfold PAGE_SIZE; lia). done. }
  pose proof (deallocateSpan_no_neighbour fuel pc1 (pageAddr s) n S _ Hreg HS1 Hnone)
    as Hd.
  cbn [numPages set_numPages] in Hd.
  eexists pc1, _, _, _. split; [done|]. split; [exact Hd|]. cbn [spans freeSpans_].
  split; [by rewrite lookup_insert_eq|]. split; [done|].
  split; [by rewrite lookup_insert_ne|]. split; [done|].
  split; [done|]. split; [by rewrite lookup_insert_eq|].
  unfold bucket. cbn [freeSpans_ next set_next].
  destruct (decide (rest = n)) as [Heq|Hneq].
  - right. split; [done|]. unfold bucket. rewrite <- Heq, Hk1. done.
  - left. rewrite lookup_insert_ne by done. by rewrite Hk1.
Qed.

Lemma split_then_release_not_rejoined_witness :
  exists pc1 pc2 sF tail,
    allocateSpan None dirty pc_free65 8 = Some (65536, dirty, pc1) /\
    deallocateSpan 3 pc1 65536 8 = Some pc2 /\
    spans pc2 !! 1%positive = Some sF /\ numPages sF = 8 /\
    spans pc2 !! fresh (dom (spans pc_free65)) = Some tail /\ numPages tail = 65 - 8 /\
    pageAddr sF + numPages sF * PAGE_SIZE = pageAddr tail.
Proof.
  destruct (split_then_release_not_rejoined 3 None dirty pc_free65 8 65 1%positive
              (mkSpan 65536 65 None))
    as (pc1 & pc2 & sF & tail & H1 & H2 & H3 & H4 & H5 & H6 & H7 & _);
    [exact lower_bound_free65 | reflexivity | cbn; lia | cbn; lia
     | by vm_compute | reflexivity |].
  exists pc1, pc2, sF, tail. repeat split; assumption.
Defined.
